(** * ssnkp: the record-to-table projection engine of [streamlit_app.py]

    A shallow embedding of the pure helpers of the Susenas questionnaire
    viewer (value formatters, commodity split, person numbering, blok
    parser, row ordering) together with the part of the Python runtime
    they call: exceptions, [float()], [int()], [str()], the [,.Nf] format
    specification, [re.match] on the pattern fragment in use, [sorted]
    and insertion-ordered dictionaries.

    Conventions.
    - A Python [str] is a [string]: a sequence of code points below 256.
    - A Python [float] is a binary64 number, [spec_float] with precision 53
      and maximal exponent 1024.
    - A Python [int] is a [Z].
    - A call that can raise returns a [result]. *)

From Stdlib Require Import ZArith List String Ascii Bool Lia.
From Stdlib Require Import Numbers.DecimalString Floats.SpecFloat.
From stdpp Require Import gmap strings list sorting.

Local Open Scope string_scope.
Local Open Scope list_scope.
Local Open Scope Z_scope.

(** ** Exceptions *)

Inductive exn := TypeError | ValueError | OverflowError.

Inductive result (A : Type) : Type :=
  | Ok (a : A)
  | Raise (e : exn).
Arguments Ok {A} a.
Arguments Raise {A} e.

#[global] Instance result_ret : MRet result := fun _ a => Ok a.
#[global] Instance result_bind : MBind result := fun _ _ k r =>
  match r with Ok a => k a | Raise e => Raise e end.

(** [try: body except (caught...): handler] *)
Definition try_except {A} (body : result A) (caught : exn -> bool)
    (handler : result A) : result A :=
  match body with
  | Ok a => Ok a
  | Raise e => if caught e then handler else Raise e
  end.

(** The clause [except (TypeError, ValueError)] of both formatters. *)
Definition TypeError_or_ValueError (e : exn) : bool :=
  match e with TypeError | ValueError => true | OverflowError => false end.

Definition returns {A} (r : result A) : Prop := exists a, r = Ok a.

(** ** Characters and decimal digits *)

Module Chars.

Definition code (c : ascii) : Z := Z.of_nat (nat_of_ascii c).

Definition in_range (lo hi c : ascii) : bool :=
  (code lo <=? code c) && (code c <=? code hi).

(** [\d] on code points below 256, and the digits [float()] reads. *)
Definition is_digit (c : ascii) : bool := in_range "0" "9" c.

Definition is_upper (c : ascii) : bool := in_range "A" "Z" c.

Definition digit_val (c : ascii) : Z := code c - 48.

(** White space [float()] strips, on code points below 256: the ASCII
    white space (tab to carriage return, and the blank) and the two
    others that [float()] turns into a blank first, NEL and the no-break
    space. The separators 28 to 31 are white space for [str.isspace] but
    not for [float()], which rejects a text that holds one. *)
Definition is_space (c : ascii) : bool :=
  let n := code c in
  ((9 <=? n) && (n <=? 13)) || (n =? 32) || (n =? 133) || (n =? 160).

Definition lower (c : ascii) : ascii :=
  if is_upper c then ascii_of_nat (nat_of_ascii c + 32) else c.

(** The longest prefix of decimal digits, and what follows it. *)
Fixpoint span_digits (l : list ascii) : list ascii * list ascii :=
  match l with
  | c :: r =>
      if is_digit c then let '(d, r') := span_digits r in (c :: d, r')
      else ([], l)
  | [] => ([], [])
  end.

Definition Z_of_digits (ds : list ascii) : Z :=
  fold_left (fun acc c => 10 * acc + digit_val c) ds 0.

(** [str(n)] for an [int]. *)
Definition str_of_Z (z : Z) : string := NilZero.string_of_int (Z.to_int z).

(** [int(s)] for a string the caller knows to be a run of digits. *)
Definition int_of_digits (s : string) : Z :=
  Z_of_digits (list_ascii_of_string s).

End Chars.

(** ** Binary64 floats *)

Module Float.
Import Chars.

Abbreviation float := spec_float.

Definition prec : Z := 53.
Definition emax : Z := 1024.

Definition eqb (x y : float) : bool :=
  match x, y with
  | S754_zero a, S754_zero b => Bool.eqb a b
  | S754_infinity a, S754_infinity b => Bool.eqb a b
  | S754_nan, S754_nan => true
  | S754_finite a m e, S754_finite b n f =>
      Bool.eqb a b && Pos.eqb m n && Z.eqb e f
  | _, _ => false
  end.

(** The float nearest to the integer [z], ties to even; too large an
    integer gives an infinity. *)
Definition of_Z (z : Z) : float := binary_normalize prec emax z 0 false.

(** [float(n)] for an [int]: "int too large to convert to float". *)
Definition of_int (z : Z) : result float :=
  match of_Z z with
  | S754_infinity _ => Raise OverflowError
  | f => Ok f
  end.

(** The float nearest to [(-1)^neg * d * 10^e], ties to even. *)
Definition of_decimal (neg : bool) (d e : Z) : float :=
  match d with
  | Zpos p =>
      if 0 <=? e then binary_round prec emax neg (p * Z.to_pos (10 ^ e)) 0
      else SFdiv prec emax (S754_finite neg p 0)
                           (S754_finite false (Z.to_pos (10 ^ (- e))) 0)
  | _ => S754_zero neg
  end.

Definition div (x y : float) : float := SFdiv prec emax x y.
Definition add (x y : float) : float := SFadd prec emax x y.
(** [x < y], the only comparison [sorted] uses. *)
Definition ltb (x y : float) : bool := SFltb x y.

(** *** [float(s)] for a [str] *)

Definition take_sign (l : list ascii) : bool * list ascii :=
  match l with
  | "-"%char :: r => (true, r)
  | "+"%char :: r => (false, r)
  | _ => (false, l)
  end.

Fixpoint lstrip (l : list ascii) : list ascii :=
  match l with
  | c :: r => if is_space c then lstrip r else l
  | [] => []
  end.

Definition strip (l : list ascii) : list ascii :=
  rev (lstrip (rev (lstrip l))).

(** An underscore is accepted between two digits only; accepted
    underscores are dropped before the number is read. *)
Fixpoint drop_underscores (prev : ascii) (l : list ascii)
    : option (list ascii) :=
  match l with
  | [] => if Ascii.eqb prev "_" then None else Some []
  | c :: r =>
      if Ascii.eqb c "_" then
        if is_digit prev then drop_underscores c r else None
      else if Ascii.eqb prev "_" && negb (is_digit c) then None
      else option_map (cons c) (drop_underscores c r)
  end.

Definition lower_all (l : list ascii) : string :=
  string_of_list_ascii (map lower l).

(** [[sign] ("inf" | "infinity" | "nan")], in any letter case. *)
Definition parse_inf_or_nan (l : list ascii) : option float :=
  let '(neg, r) := take_sign l in
  let w := lower_all r in
  if String.eqb w "inf" || String.eqb w "infinity"
  then Some (S754_infinity neg)
  else if String.eqb w "nan" then Some S754_nan
  else None.

(** [[sign] (digits ["." [digits]] | "." digits) [("e"|"E") [sign] digits]],
    the whole of [l]. *)
Definition parse_decimal (l : list ascii) : option float :=
  let '(neg, l1) := take_sign l in
  let '(ip, l2) := span_digits l1 in
  let '(fp, l3) :=
    match l2 with
    | "."%char :: r => span_digits r
    | _ => ([], l2)
    end in
  let mant := Z_of_digits (ip ++ fp) in
  let shift := Z.of_nat (length fp) in
  match (ip ++ fp), l3 with
  | [], _ => None
  | _, [] => Some (of_decimal neg mant (- shift))
  | _, c :: r =>
      if Ascii.eqb (lower c) "e" then
        let '(eneg, r1) := take_sign r in
        match span_digits r1 with
        | ([], _) => None
        | (ed, []) =>
            let ex := Z_of_digits ed in
            Some (of_decimal neg mant ((if eneg then - ex else ex) - shift))
        | (_, _ :: _) => None
        end
      else None
  end.

(** [float(s)]: [None] is "could not convert string to float". *)
Definition of_string (s : string) : option float :=
  match drop_underscores " " (strip (list_ascii_of_string s)) with
  | Some l =>
      match parse_decimal l with
      | Some f => Some f
      | None => parse_inf_or_nan l
      end
  | None => None
  end.

(** *** [int(x)] for a float, and [x == n] for an int [n] *)

(** Truncation towards zero; NaN and the infinities have no integer. *)
Definition to_int (x : float) : result Z :=
  match x with
  | S754_nan => Raise ValueError
  | S754_infinity _ => Raise OverflowError
  | S754_zero _ => Ok 0
  | S754_finite s m e =>
      let a := if 0 <=? e then Zpos m * 2 ^ e else Zpos m / 2 ^ (- e) in
      Ok (if s then - a else a)
  end.

(** Python compares a float with an int by exact value. *)
Definition eq_int (x : float) (n : Z) : bool :=
  match x with
  | S754_zero _ => n =? 0
  | S754_finite s m e =>
      let a := if s then Zneg m else Zpos m in
      if 0 <=? e then a * 2 ^ e =? n else a =? n * 2 ^ (- e)
  | _ => false
  end.

(** *** [format(x, ",.Nf")] *)

Definition div_half_even (n d : Z) : Z :=
  let q := n / d in
  match 2 * (n mod d) ?= d with
  | Lt => q
  | Gt => q + 1
  | Eq => if Z.even q then q else q + 1
  end.

(** [m * 2^e * 10^p] rounded to an integer, ties to even. *)
Definition scaled (m : positive) (e : Z) (p : nat) : Z :=
  if 0 <=? e then Zpos m * 2 ^ e * 10 ^ Z.of_nat p
  else div_half_even (Zpos m * 10 ^ Z.of_nat p) (2 ^ (- e)).

(** A comma before every group of three digits, counted from the right. *)
Fixpoint group3_rev (l : list ascii) : list ascii :=
  match l with
  | a :: b :: c :: ((_ :: _) as r) => a :: b :: c :: ","%char :: group3_rev r
  | _ => l
  end.

Definition group3 (l : list ascii) : list ascii := rev (group3_rev (rev l)).

Definition digits_of (n : Z) : list ascii :=
  list_ascii_of_string (str_of_Z n).

(** The digits of [n >= 0] with the point [p] places from the right. *)
Definition fixed (neg : bool) (n : Z) (p : nat) : string :=
  let ds := digits_of n in
  let ds := repeat "0"%char (S p - length ds) ++ ds in
  let k := (length ds - p)%nat in
  string_of_list_ascii
    ((if neg then ["-"%char] else [])
     ++ group3 (firstn k ds)
     ++ match p with O => [] | _ => "."%char :: skipn k ds end).

Definition format_f (p : nat) (x : float) : string :=
  match x with
  | S754_nan => "nan"
  | S754_infinity s => if s then "-inf" else "inf"
  | S754_zero s => fixed s 0 p
  | S754_finite s m e => fixed s (scaled m e p) p
  end.

(** *** [repr(x)], which is also [str(x)]

    The shortest run of decimal digits that [float()] reads back as [x]
    and, among those, the nearest to [x]. *)

(** The least [j >= 1] with [num * 10^j >= den], searched from [j]. *)
Fixpoint first_scale (fuel : nat) (num den j : Z) : Z :=
  match fuel with
  | O => j
  | S fuel' =>
      if den <=? num * 10 ^ j then j else first_scale fuel' num den (j + 1)
  end.

(** The [k] with [10^(k-1) <= num/den < 10^k]. *)
Definition decimal_exponent (num den : Z) : Z :=
  if den <=? num then Z.of_nat (length (digits_of (num / den)))
  else 1 - first_scale (Z.to_nat (Z.log2 den) + 1) num den 1.

(** [num/den] in units of [10^q]: numerator and denominator. *)
Definition in_units (num den q : Z) : Z * Z :=
  if q <=? 0 then (num * 10 ^ (- q), den) else (num, den * 10 ^ q).

(** Tries [n], [n+1], ... digits; at most [fuel] lengths. Returns the
    digits as an integer [c] and the exponent [q]: the value [c * 10^q]. *)
Fixpoint shortest (fuel : nat) (x : float) (num den k n : Z) : Z * Z :=
  let q := k - n in
  let '(a, b) := in_units num den q in
  let lo := a / b in
  let hi := lo + 1 in
  match fuel with
  | O => (div_half_even a b, q)
  | S fuel' =>
      if a mod b =? 0 then (lo, q)
      else
        match eqb (of_decimal false lo q) x, eqb (of_decimal false hi q) x with
        | true, true => (div_half_even a b, q)
        | true, false => (lo, q)
        | false, true => (hi, q)
        | false, false => shortest fuel' x num den k (n + 1)
        end
  end.

Fixpoint strip_zeros_rev (l : list ascii) (q : Z) : list ascii * Z :=
  match l with
  | "0"%char :: ((_ :: _) as r) => strip_zeros_rev r (q + 1)
  | _ => (l, q)
  end.

(** The digits of [repr] and the position of the decimal point after
    the first [decpt] of them. *)
Definition repr_digits (m : positive) (e : Z) : list ascii * Z :=
  let '(num, den) :=
    if 0 <=? e then (Zpos m * 2 ^ e, 1) else (Zpos m, 2 ^ (- e)) in
  let k := decimal_exponent num den in
  let '(c, q) := shortest 16 (S754_finite false m e) num den k 1 in
  let '(ds, q') := strip_zeros_rev (rev (digits_of c)) q in
  (rev ds, Z.of_nat (length ds) + q').

Definition zeros (n : Z) : list ascii := repeat "0"%char (Z.to_nat n).

Definition two_digits (n : Z) : list ascii :=
  (if n <? 10 then ["0"%char] else []) ++ digits_of n.

Definition repr_layout (ds : list ascii) (decpt : Z) : list ascii :=
  let len := Z.of_nat (length ds) in
  if (16 <? decpt) || (decpt <? -3) then
    firstn 1 ds
    ++ match skipn 1 ds with [] => [] | r => "."%char :: r end
    ++ "e"%char :: (if decpt - 1 <? 0 then "-"%char else "+"%char)
    :: two_digits (Z.abs (decpt - 1))
  else if decpt <=? 0 then
    "0"%char :: "."%char :: zeros (- decpt) ++ ds
  else if len <=? decpt then
    ds ++ zeros (decpt - len) ++ ["."%char; "0"%char]
  else
    firstn (Z.to_nat decpt) ds ++ "."%char :: skipn (Z.to_nat decpt) ds.

Definition repr (x : float) : string :=
  match x with
  | S754_nan => "nan"
  | S754_infinity s => if s then "-inf" else "inf"
  | S754_zero s => if s then "-0.0" else "0.0"
  | S754_finite s m e =>
      let '(ds, decpt) := repr_digits m e in
      string_of_list_ascii
        ((if s then ["-"%char] else []) ++ repr_layout ds decpt)
  end.

End Float.


(** ** Values *)

(** A scalar as storage hands it over: [None], an [int], a [float] or a
    [str]. *)
Inductive value :=
  | VNone
  | VInt (n : Z)
  | VFloat (x : Float.float)
  | VStr (s : string).

Definition is_None (v : value) : bool :=
  match v with VNone => true | _ => false end.

(** [v == s] for a string [s]: only an equal string is equal to it. *)
Definition eq_str (v : value) (s : string) : bool :=
  match v with VStr t => String.eqb t s | _ => false end.

(** [float(v)] *)
Definition py_float (v : value) : result Float.float :=
  match v with
  | VNone => Raise TypeError
  | VInt n => Float.of_int n
  | VFloat x => Ok x
  | VStr s =>
      match Float.of_string s with
      | Some x => Ok x
      | None => Raise ValueError
      end
  end.

(** [str(v)] *)
Definition py_str (v : value) : string :=
  match v with
  | VNone => "None"
  | VInt n => Chars.str_of_Z n
  | VFloat x => Float.repr x
  | VStr s => s
  end.

(** * Formatting helpers *)

Definition fmt_currency (val : value) : result string :=
  if is_None val then Ok "-"
  else
    try_except
      (x ← py_float val; Ok (Float.format_f 0 x))
      TypeError_or_ValueError
      (Ok (py_str val)).

Definition fmt_number (val : value) : result string :=
  if is_None val then Ok "-"
  else
    try_except
      (v ← py_float val;
       n ← Float.to_int v;
       Ok (if Float.eq_int v n then Float.format_f 0 v
           else Float.format_f 2 v))
      TypeError_or_ValueError
      (Ok (py_str val)).

Definition val_or_dash (val : value) : string :=
  if is_None val || eq_str val "" then "-" else py_str val.

(** ** [sorted] and [list.sort]

    Both are stable and compare keys with [<] only; every key is computed
    before the first comparison. An element is placed after the elements
    whose key is smaller and before all others, so equal keys keep the
    order of the input. *)

Section StableSort.
Context {A K : Type} (key : A -> K) (lt : K -> K -> bool).

Fixpoint insert_by (x : A) (l : list A) : list A :=
  match l with
  | [] => [x]
  | y :: r => if lt (key y) (key x) then y :: insert_by x r else x :: l
  end.

Definition sort_by (l : list A) : list A := foldr insert_by [] l.

(** [a] may stand before [b]: the key of [b] is not smaller. *)
Definition not_after (a b : A) : Prop := lt (key b) (key a) = false.

(** [a] and [b] have keys that [<] does not tell apart. *)
Definition same_key (a b : A) : bool :=
  negb (lt (key a) (key b)) && negb (lt (key b) (key a)).
End StableSort.

(** * Komoditi split logic *)

(** One row of [modul_komoditi] joined with [komoditi]; a field is what
    [item.get(<column>)] returns, [None] for SQL NULL. The fourteen value
    columns [Kolom1] .. [Kolom14] are [slots], in that order. *)
Record komoditi := {
  NoUrutKomoditiFK : option Z;
  IDART : option string;
  slots : list value;
  Rincian : option string;
  KodeCOICOP : option string
}.

(** [item.get(f"Kolom{i}")] *)
Definition Kolom (item : komoditi) (i : nat) : value :=
  nth (i - 1) (slots item) VNone.

(** [item.get("NoUrutKomoditiFK") or 0] *)
Definition NoUrut_or_0 (item : komoditi) : Z := default 0 (NoUrutKomoditiFK item).

(** [item.get("IDART") or ""] *)
Definition IDART_or_empty (item : komoditi) : string := default "" (IDART item).

Definition has_any_value (item : komoditi) : bool :=
  existsb (fun i => negb (is_None (Kolom item i))) (seq 1 14).

Definition is_makanan (k : komoditi) : bool := NoUrut_or_0 k <? 186.
Definition is_individu (k : komoditi) : bool :=
  (186 <=? NoUrut_or_0 k) && (NoUrut_or_0 k <? 226).
Definition is_non_makanan (k : komoditi) : bool := 226 <=? NoUrut_or_0 k.

(** The sort key of the individual bucket and [<] on such tuples: the
    first components decide unless they are equal. *)
Definition individu_key (x : komoditi) : string * Z :=
  (IDART_or_empty x, NoUrut_or_0 x).

Definition tuple_lt (a b : string * Z) : bool :=
  if String.eqb (fst a) (fst b) then snd a <? snd b
  else String.ltb (fst a) (fst b).

Definition split_komoditi (komoditi_rows : list komoditi)
    : list komoditi * list komoditi * list komoditi :=
  let valid := List.filter has_any_value komoditi_rows in
  let makanan := List.filter is_makanan valid in
  let individu := List.filter is_individu valid in
  let non_makanan := List.filter is_non_makanan valid in
  let individu := sort_by individu_key tuple_lt individu in
  (makanan, individu, non_makanan).

(** [if idart and idart not in seen] *)
Definition fresh_idart (seen : list string) (idart : option string) : bool :=
  match idart with
  | Some s => negb (String.eqb s "") && negb (existsb (String.eqb s) seen)
  | None => false
  end.

(** The list [seen] when the loop of [build_idart_map] ends. *)
Definition seen_idart (individu : list komoditi) : list string :=
  fold_left
    (fun seen item =>
       if fresh_idart seen (IDART item)
       then seen ++ [default "" (IDART item)] else seen)
    individu [].

Definition build_idart_map (individu : list komoditi) : gmap string Z :=
  fold_left (fun m '(idx, idart) => <[idart := idx + 1]> m)
            (imap (fun idx idart => (Z.of_nat idx, idart)) (seen_idart individu))
            ∅.

(** [idart_map.get(item.get("IDART"), "-")]: the number, or the dash. *)
Definition ART (idart_map : gmap string Z) (item : komoditi) : Z + string :=
  match IDART item with
  | Some s => match idart_map !! s with Some n => inl n | None => inr "-" end
  | None => inr "-"
  end.

(** * Regular expressions: the fragment [re.match] is called with *)

Module Re.
Import Chars.

Inductive cls :=
  | Lit (c : ascii)             (* an ordinary character *)
  | Digit                       (* \d *)
  | Range (lo hi : ascii)       (* [lo-hi] *)
  | OneOf (cs : list ascii).    (* [abc] *)

Inductive rep := Once | Plus | Optional.

(** A character class with its repetition and the number of the group
    around it (0 outside every group), or the anchor [$]. *)
Inductive tok :=
  | Chr (c : cls) (r : rep) (g : nat)
  | Eos.

(** *** Reading a pattern *)

Fixpoint split_at (stop : ascii) (l : list ascii)
    : option (list ascii * list ascii) :=
  match l with
  | [] => None
  | c :: r =>
      if Ascii.eqb c stop then Some ([], r)
      else match split_at stop r with
           | Some (a, b) => Some (c :: a, b)
           | None => None
           end
  end.

Definition class_of (body : list ascii) : cls :=
  match body with
  | [lo; "-"%char; hi] => Range lo hi
  | _ => OneOf body
  end.

Definition postfix (l : list ascii) : rep * list ascii :=
  match l with
  | "+"%char :: r => (Plus, r)
  | "?"%char :: r => (Optional, r)
  | _ => (Once, l)
  end.

(** [cur] is the group being read (0: none), [n] the groups opened so
    far. A leading [^] is dropped by [compile]: [re.match] matches at
    the start of the string anyway. *)
Fixpoint read (fuel : nat) (cur n : nat) (l : list ascii)
    : option (list tok) :=
  match fuel with
  | O => match l with [] => Some [] | _ => None end
  | S fuel' =>
      let chr c rest :=
        let '(r, rest') := postfix rest in
        option_map (cons (Chr c r cur)) (read fuel' cur n rest') in
      match l with
      | [] => Some []
      | "$"%char :: rest => option_map (cons Eos) (read fuel' cur n rest)
      | "("%char :: rest => read fuel' (S n) (S n) rest
      | ")"%char :: rest => read fuel' O n rest
      | "\"%char :: "d"%char :: rest => chr Digit rest
      | "["%char :: rest =>
          match split_at "]" rest with
          | Some (body, rest') => chr (class_of body) rest'
          | None => None
          end
      | c :: rest => chr (Lit c) rest
      end
  end.

Definition compile (pattern : string) : option (list tok) :=
  let l := list_ascii_of_string pattern in
  let l := match l with "^"%char :: r => r | _ => l end in
  read (length l) O O l.

(** *** Matching *)

Definition accepts (c : cls) (a : ascii) : bool :=
  match c with
  | Lit b => Ascii.eqb a b
  | Digit => is_digit a
  | Range lo hi => in_range lo hi a
  | OneOf cs => existsb (Ascii.eqb a) cs
  end.

Fixpoint run_length (c : cls) (s : list ascii) : nat :=
  match s with
  | a :: r => if accepts c a then S (run_length c r) else O
  | [] => O
  end.

(** [$]: at the end, or before a newline that ends the string. *)
Definition at_end (s : list ascii) : bool :=
  match s with
  | [] => true
  | [c] => Ascii.eqb c (ascii_of_nat 10)
  | _ => false
  end.

(** What each token matched, with its group number. *)
Definition pieces := list (nat * list ascii).

(** Greedy repetition with backtracking: the longest run first, then
    one character less, down to [least]. *)
Fixpoint longest_first (k : list ascii -> option pieces) (g : nat)
    (s : list ascii) (least : nat) (extra : nat) : option pieces :=
  match k (skipn (least + extra) s) with
  | Some ps => Some ((g, firstn (least + extra) s) :: ps)
  | None =>
      match extra with
      | O => None
      | S extra' => longest_first k g s least extra'
      end
  end.

Fixpoint run (p : list tok) (s : list ascii) : option pieces :=
  match p with
  | [] => Some []
  | Eos :: p' => if at_end s then run p' s else None
  | Chr c r g :: p' =>
      let n := run_length c s in
      match r with
      | Once => if (1 <=? n)%nat then longest_first (run p') g s 1 0 else None
      | Plus => if (1 <=? n)%nat then longest_first (run p') g s 1 (n - 1) else None
      | Optional => longest_first (run p') g s 0 (Nat.min n 1)
      end
  end.

(** [re.match(pattern, s)]: a match object, or [None]. *)
Definition match_ (pattern : string) (s : string) : option pieces :=
  match compile pattern with
  | Some p => run p (list_ascii_of_string s)
  | None => None
  end.

(** [m.group(g)] *)
Definition group (m : pieces) (g : nat) : string :=
  string_of_list_ascii
    (concat (map snd (List.filter (fun x => Nat.eqb (fst x) g) m))).

End Re.

(** * Insertion-ordered dictionaries *)

Module ODict.

Definition t (V : Type) : Type := list (string * V).

(** [d.get(k)] *)
Fixpoint get {V} (k : string) (d : t V) : option V :=
  match d with
  | [] => None
  | (k', v) :: r => if String.eqb k k' then Some v else get k r
  end.

(** [d[k] = v]: a present key keeps its place, a new key goes last. *)
Fixpoint set {V} (k : string) (v : V) (d : t V) : t V :=
  match d with
  | [] => [(k, v)]
  | (k', v') :: r =>
      if String.eqb k k' then (k, v) :: r else (k', v') :: set k v r
  end.

(** [d.setdefault(k, {})[k2] = v] *)
Definition set2 {V} (k k2 : string) (v : V) (d : t (t V)) : t (t V) :=
  set k (set k2 v (default [] (get k d))) d.

Definition keys {V} (d : t V) : list string := map fst d.
Definition values {V} (d : t V) : list V := map snd d.

End ODict.

(** * Blok rekap parser *)

Definition SUB_ROW_BLOKS : gset string := {[ "B5E"; "B5G" ]}.
Definition SUB_ROWS : gset string := {[ "11"; "12"; "13"; "14"; "15" ]}.

(** [key[:n]] and [key[n:]] *)
Definition prefix (n : nat) (key : string) : string :=
  string_of_list_ascii (firstn n (list_ascii_of_string key)).
Definition suffix_from (n : nat) (key : string) : string :=
  string_of_list_ascii (skipn n (list_ascii_of_string key)).

Definition matches (pattern key : string) : bool :=
  bool_decide (is_Some (Re.match_ pattern key)).

Definition classify_blok_key (key : string) : option string :=
  if matches "^B43[123]" key then Some (prefix 4 key)
  else if matches "^B5[A-G]R" key then Some (prefix 3 key)
  else if matches "^B5[A-G]K" key then Some (prefix 3 key)
  else if matches "^B6R" key then Some "B6"
  else if matches "^B7R" key then Some "B7"
  else None.

(** The three address patterns of [parse_blok_data], tried in order on the
    key with the blok name stripped: the row and the column a field
    belongs to, or [None] for a field that is left out. *)
Definition address (suffix : string) : option (string * string) :=
  match Re.match_ "R(\d+[A-Z]?)K(\d+)" suffix with
  | Some m => Some (Re.group m 1, "K" +:+ Re.group m 2)
  | None =>
      match Re.match_ "R(\d+)$" suffix with
      | Some m => Some (Re.group m 1, "K4")
      | None =>
          match Re.match_ "K(\d+)" suffix with
          | Some m => Some ("1", "K" +:+ Re.group m 1)
          | None => None
          end
      end
  end.

(** First loop: [blok_raw], blok name -> [{key: value}]. *)
Definition collect_blok_raw (rekap : ODict.t value) : ODict.t (ODict.t value) :=
  fold_left
    (fun blok_raw '(key, value) =>
       match classify_blok_key key with
       | Some blok_name =>
           if String.eqb blok_name "" then blok_raw
           else ODict.set2 blok_name key value blok_raw
       | None => blok_raw
       end)
    rekap [].

(** Inner loop: the rows of one blok. *)
Definition parse_rows (blok_name : string) (data : ODict.t value)
    : ODict.t (ODict.t value) :=
  fold_left
    (fun rows '(key, value) =>
       match address (suffix_from (String.length blok_name) key) with
       | Some (row_num, col) => ODict.set2 row_num col value rows
       | None => rows
       end)
    data [].

(** [any(v is not None for v in data.values())] *)
Definition any_not_None (data : ODict.t value) : bool :=
  existsb (fun v => negb (is_None v)) (ODict.values data).

Definition parse_blok_data (rekap : ODict.t value)
    : ODict.t (ODict.t (ODict.t value)) :=
  fold_left
    (fun blok_tables '(blok_name, data) =>
       if negb (any_not_None data) then blok_tables
       else
         match parse_rows blok_name data with
         | [] => blok_tables
         | rows => ODict.set blok_name rows blok_tables
         end)
    (collect_blok_raw rekap) [].

(** [sort_key] of [sort_rows]. *)
Definition sort_key (is_sub : bool) (r : string) : result Float.float :=
  let num :=
    match Re.match_ "(\d+)" r with
    | Some m => Chars.int_of_digits (Re.group m 1)
    | None => 0
    end in
  if is_sub && bool_decide (r ∈ SUB_ROWS) then
    x ← Float.of_int (num - 10);
    Ok (Float.add (Float.of_Z 1) (Float.div x (Float.of_Z 10)))
  else Float.of_int num.

Definition sort_rows (blok_name : string) (row_keys : list string)
    : result (list string) :=
  let is_sub := bool_decide (blok_name ∈ SUB_ROW_BLOKS) in
  keys ← mapM (sort_key is_sub) row_keys;
  Ok (map snd (sort_by fst Float.ltb (zip keys row_keys))).

Definition row_label (blok_name row_num : string) : string :=
  if bool_decide (blok_name ∈ SUB_ROW_BLOKS) && bool_decide (row_num ∈ SUB_ROWS)
  then "R1." +:+ Chars.str_of_Z (Chars.int_of_digits row_num - 10)
  else "R" +:+ row_num.

(** * Vocabulary of the specification *)

(** A line has a value: one of its fourteen value columns [Kolom1] ..
    [Kolom14] is not [None]. *)
Definition with_value (item : komoditi) : Prop :=
  exists i, (1 <= i <= 14)%nat /\ Kolom item i <> VNone.

(** The composite key of a line, read from its columns: the person id,
    the empty text when the column is [None], and the sequence number, 0
    when the column is [None]. *)
Definition personId (item : komoditi) : string :=
  match IDART item with Some id => id | None => "" end.

Definition sequenceNumber (item : komoditi) : Z :=
  match NoUrutKomoditiFK item with Some n => n | None => 0 end.

(** The order of the composite key (personId, sequenceNumber): the person
    ids as texts, code point by code point; for the same person id the
    sequence numbers as integers. *)
Definition composite_le (a b : komoditi) : Prop :=
  String.compare (personId a) (personId b) = Lt
  \/ (personId a = personId b /\ sequenceNumber a <= sequenceNumber b).

(** The order of the individual bucket: by person id, absent read as the
    empty string, then by sequence number, absent read as 0. *)
Definition key_le (a b : komoditi) : Prop :=
  String.compare (IDART_or_empty a) (IDART_or_empty b) = Lt
  \/ (IDART_or_empty a = IDART_or_empty b /\ NoUrut_or_0 a <= NoUrut_or_0 b).

(** A line that names a person: its person id is present and not empty. *)
Definition has_person (item : komoditi) : bool :=
  match IDART item with
  | Some s => negb (String.eqb s "")
  | None => false
  end.

(** The person ids of the lines that name a person, line by line. *)
Definition person_ids (individu : list komoditi) : list string :=
  omap (fun item => if has_person item then IDART item else None) individu.

(** Where [id] first appears in [ids]. *)
Fixpoint first_pos (id : string) (ids : list string) : option nat :=
  match ids with
  | [] => None
  | x :: r => if String.eqb id x then Some O else S <$> first_pos id r
  end.

(** The ids of [ids] that are not in [seen], each once, in the order in
    which they first appear. *)
Fixpoint first_appearances (seen ids : list string) : list string :=
  match ids with
  | [] => []
  | x :: r =>
      if existsb (String.eqb x) seen then first_appearances seen r
      else x :: first_appearances (seen ++ [x]) r
  end.

(** How many different person ids there are. *)
Definition distinct_persons (individu : list komoditi) : Z :=
  Z.of_nat (size (list_to_set (person_ids individu) : gset string)).

(** A row table holds a value: some row has some column that is not
    [None]. *)
Definition RowTable_has_value (rows : ODict.t (ODict.t value)) : Prop :=
  exists row cols col v,
    ODict.get row rows = Some cols /\ ODict.get col cols = Some v /\ v <> VNone.

(** The fields of a section: the entries of the record whose key is
    classified to it. *)
Definition field_of (rekap : ODict.t value) (blok_name : string)
    (key : string) (v : value) : Prop :=
  (key, v) ∈ rekap /\ classify_blok_key key = Some blok_name.

(** * The rest of the pure code *)

(** ** What a match object holds *)

(** The tokens that consume characters. *)
Definition chr_toks (p : list Re.tok) : list Re.tok :=
  List.filter (fun t => match t with Re.Eos => false | _ => true end) p.

(** A piece is what its token can match: characters of the class, as
    many as the repetition allows, filed under the token's group. *)
Definition piece_ok (t : Re.tok) (piece : nat * list ascii) : Prop :=
  match t with
  | Re.Chr c r g =>
      piece.1 = g
      /\ Forall (fun a => Re.accepts c a = true) piece.2
      /\ match r with
         | Re.Once => length piece.2 = 1%nat
         | Re.Plus => (1 <= length piece.2)%nat
         | Re.Optional => (length piece.2 <= 1)%nat
         end
  | Re.Eos => False
  end.

(** [m.group()], the whole match. *)
Definition whole (m : Re.pieces) : string :=
  string_of_list_ascii (concat (map snd m)).

(** [re.search] tries every position from the left. *)
Fixpoint search_from (p : list Re.tok) (s : list ascii) : option Re.pieces :=
  match Re.run p s with
  | Some m => Some m
  | None =>
      match s with
      | [] => None
      | _ :: r => search_from p r
      end
  end.

(** [re.search(pattern, s)]; a pattern that starts with [^] matches at
    the start only. *)
Definition re_search (pattern s : string) : option Re.pieces :=
  match Re.compile pattern with
  | Some p =>
      match pattern with
      | String "^" _ => Re.run p (list_ascii_of_string s)
      | _ => search_from p (list_ascii_of_string s)
      end
  | None => None
  end.

(** ** Rendering helpers *)

(** [sep.join(parts)] *)
Fixpoint join (sep : string) (parts : list string) : string :=
  match parts with
  | [] => ""
  | [p] => p
  | p :: r => p +:+ sep +:+ join sep r
  end.

Definition lainnya_str (item : komoditi) : result string :=
  parts ← mapM
    (fun i =>
       s ← fmt_number (Kolom item i);
       Ok ("K" +:+ Chars.str_of_Z (Z.of_nat i) +:+ ":" +:+ s))
    (List.filter (fun i => negb (is_None (Kolom item i))) (seq 7 8));
  Ok (match parts with [] => "-" | _ => join ", " parts end).

Definition BLOK_TITLES : ODict.t string :=
  [("B431", "Blok IV.3.1 - Pengeluaran");
   ("B432", "Blok IV.3.2 - Pengeluaran Makanan Seminggu");
   ("B433", "Blok IV.3.3 - Pengeluaran Non Makanan");
   ("B5A", "Blok V.A - Jumlah Pendapatan Pekerjaan");
   ("B5B", "Blok V.B - Jumlah Pendapatan Usaha");
   ("B5C", "Blok V.C - Pendapatan dari Sumber Lain");
   ("B5D", "Blok V.D - Penerimaan");
   ("B5E", "Blok V.E - Penerimaan Lainnya");
   ("B5F", "Blok V.F - Pengiriman Uang/Barang");
   ("B5G", "Blok V.G - Pengeluaran Bukan Konsumsi");
   ("B6", "Blok VI - Pengeluaran dan Pendapatan");
   ("B7", "Blok VII - Pendapatan dan Pengeluaran")].

(** The sort key of the columns in [render_blok_rekap_table]:
    [int(re.search(r"\d+", c).group())]. [None] stands for the
    [AttributeError] of calling [group] on no match. *)
Definition column_number (c : string) : option Z :=
  match re_search "\d+" c with
  | Some m => Some (Chars.int_of_digits (whole m))
  | None => None
  end.

(** ** The page script: which tables are shown where *)

(** [k.startswith(p)] *)
Definition startswith (p k : string) : bool := String.prefix p k.

Definition blok4_keys {V} (blok_tables : ODict.t V) : list string :=
  List.filter (startswith "B43") (ODict.keys blok_tables).

Definition blok5_keys {V} (blok_tables : ODict.t V) : list string :=
  List.filter (matches "^B5[C-G]$") (ODict.keys blok_tables).

Definition blok67_keys {V} (blok_tables : ODict.t V) : list string :=
  List.filter (fun k => String.eqb k "B6" || String.eqb k "B7")
              (ODict.keys blok_tables).

(** [BLOK_TITLES.get(bk, bk)] *)
Definition blok_title (bk : string) : string :=
  default bk (ODict.get bk BLOK_TITLES).


(** ** Shapes of row and column keys *)

(** A run of one or more decimal digits. *)
Definition digit_run (ds : list ascii) : Prop :=
  ds <> [] /\ Forall (fun a => Chars.is_digit a = true) ds.

(** A column key is [K] and a number. *)
Definition column_key (col : string) : Prop :=
  exists ds, digit_run ds /\ col = String "K" (string_of_list_ascii ds).

(** A row key is a number and at most one capital letter. *)
Definition row_key (row : string) : Prop :=
  exists ds letter,
    digit_run ds
    /\ (length letter <= 1)%nat
    /\ Forall (fun a => Chars.is_upper a = true) letter
    /\ row = string_of_list_ascii (ds ++ letter).


(** ** The table as a map from cells to values *)

(** [blok_tables.get(blok, {}).get(row, {}).get(col)] *)
Definition cell (blok_tables : ODict.t (ODict.t (ODict.t value)))
    (blok_name row col : string) : option value :=
  rows ← ODict.get blok_name blok_tables;
  cols ← ODict.get row rows;
  ODict.get col cols.

(** The cell of the table of [blok_name] that the field [key] goes to. *)
Definition cell_of (blok_name key : string) : option (string * string) :=
  if bool_decide (classify_blok_key key = Some blok_name)
  then address (suffix_from (String.length blok_name) key)
  else None.

(** The value of the last field of the record that goes to a cell. *)
Definition last_field (rekap : ODict.t value) (blok_name row col : string)
    : option value :=
  fold_left
    (fun acc '(key, v) =>
       if bool_decide (cell_of blok_name key = Some (row, col)) then Some v
       else acc)
    rekap None.

(** Some field of the section has a value. *)
Definition section_has_value (rekap : ODict.t value) (blok_name : string) : bool :=
  existsb
    (fun '(key, v) =>
       bool_decide (classify_blok_key key = Some blok_name) && negb (is_None v))
    rekap.


(** The fields of a section, in the order of the record. *)
Definition fields_of_section (blok_name : string) (rekap : ODict.t value)
    : ODict.t value :=
  List.filter
    (fun kv => bool_decide (classify_blok_key kv.1 = Some blok_name)) rekap.


(** ** Orders on person ids *)

(** [a <= b] and [a < b] on strings, as Python compares them. *)
Definition str_le (a b : string) : Prop := String.compare a b = Lt \/ a = b.
Definition str_lt (a b : string) : Prop := String.compare a b = Lt.


(** ** Reading a formatted number *)

(** The text without its thousands separators. *)
Definition without_commas (s : string) : string :=
  string_of_list_ascii
    (List.filter (fun a => negb (Ascii.eqb a ",")) (list_ascii_of_string s)).

(** * Properties *)

(** ** The runtime model on known values *)

Example float_literals :
  Float.of_decimal false 12345 (-1) = S754_finite false 5429388417957888 (-42)
  /\ Float.of_decimal false 3 0 = S754_finite false 6755399441055744 (-51)
  /\ Float.of_decimal false 35 (-1) = S754_finite false 7881299347898368 (-51)
  /\ Float.of_string "0.1" = Some (S754_finite false 7205759403792794 (-56)).
Proof. repeat split; vm_compute; reflexivity. Qed.

Example float_of_string_examples :
  Float.of_string " 1_000.5 " = Some (Float.of_decimal false 10005 (-1))
  /\ Float.of_string "-Infinity" = Some (S754_infinity true)
  /\ Float.of_string "1e999" = Some (S754_infinity false)
  /\ Float.of_string "1__0" = None
  /\ Float.of_string "12abc" = None
  /\ Float.of_string "" = None.
Proof. repeat split; vm_compute; reflexivity. Qed.

(** The white space of [float()]: a tab, a no-break space and NEL are
    stripped; the separators 28 to 31 are not, so a text that holds one
    is no number and the formatters return it as it is. *)
Example float_of_string_white_space :
  let sep n s := String (ascii_of_nat (Z.to_nat n)) s in
  Float.of_string (sep 9 (sep 160 "12" +:+ sep 133 "")) = Some (Float.of_Z 12)
  /\ Float.of_string (sep 28 "12") = None
  /\ Float.of_string (sep 31 "inf") = None
  /\ fmt_currency (VStr (sep 28 "12")) = Ok (sep 28 "12")
  /\ fmt_number (VStr (sep 31 "inf")) = Ok (sep 31 "inf").
Proof. repeat split; vm_compute; reflexivity. Qed.

Example repr_examples :
  Float.repr (Float.of_decimal false 1 (-1)) = "0.1"
  /\ Float.repr (Float.of_Z 100) = "100.0"
  /\ Float.repr (Float.of_decimal false 1 16) = "1e+16"
  /\ Float.repr (Float.of_decimal true 25 (-8)) = "-2.5e-07"
  /\ Float.repr (Float.add (Float.of_decimal false 1 (-1))
                           (Float.of_decimal false 2 (-1)))
     = "0.30000000000000004".
Proof. repeat split; vm_compute; reflexivity. Qed.

Example format_f_examples :
  Float.format_f 0 (Float.of_decimal false 5 (-1)) = "0"
  /\ Float.format_f 0 (Float.of_decimal false 15 (-1)) = "2"
  /\ Float.format_f 0 (Float.of_decimal true 4 (-1)) = "-0"
  /\ Float.format_f 2 (Float.of_decimal false 1234567125 (-3)) = "1,234,567.12"
  /\ Float.format_f 2 (Float.of_decimal false 5 (-3)) = "0.01".
Proof. repeat split; vm_compute; reflexivity. Qed.

Example re_match_examples :
  Re.match_ "R(\d+[A-Z]?)K(\d+)" "R12AK34x"
    = Some [(0, ["R"]); (1, ["1"; "2"]); (1, ["A"]); (0, ["K"]); (2, ["3"; "4"])]%nat%char
  /\ option_map (fun m => (Re.group m 1, Re.group m 2))
       (Re.match_ "R(\d+[A-Z]?)K(\d+)" "R1KK3") = Some ("1K", "3")
  /\ Re.match_ "R(\d+)$" "R8K" = None
  /\ Re.match_ "^B43[123]" "B434" = None.
Proof. repeat split; vm_compute; reflexivity. Qed.

(** ** Formatting helpers *)

Lemma fmt_currency_None : fmt_currency VNone = Ok "-".
Proof. reflexivity. Qed.

Lemma fmt_number_None : fmt_number VNone = Ok "-".
Proof. reflexivity. Qed.

(** A float is always formatted by [fmt_currency]. *)
Lemma fmt_currency_float x : fmt_currency (VFloat x) = Ok (Float.format_f 0 x).
Proof. reflexivity. Qed.

(** A string that [float()] rejects comes back unchanged. *)
Lemma fmt_currency_not_numeric s :
  Float.of_string s = None -> fmt_currency (VStr s) = Ok s.
Proof. intros H. unfold fmt_currency; cbn. now rewrite H. Qed.

Lemma fmt_number_not_numeric s :
  Float.of_string s = None -> fmt_number (VStr s) = Ok s.
Proof. intros H. unfold fmt_number; cbn. now rewrite H. Qed.

(** [fmt_currency] fails on exactly the integers [float()] overflows on. *)
Lemma fmt_currency_returns val :
  returns (fmt_currency val) <->
  (forall n, val = VInt n -> Float.of_int n <> Raise OverflowError).
Proof.
  unfold returns. destruct val as [| n | x | s]; cbn.
  - split; [intros _ ? [=] | eauto].
  - unfold fmt_currency; cbn. unfold Float.of_int.
    destruct (Float.of_Z n) eqn:E; cbn; split;
      try (intros _ ? [= <-]; rewrite E; discriminate); eauto.
    + intros [a [=]].
    + intros H. exfalso. apply (H n eq_refl). rewrite E. reflexivity.
  - split; [intros _ ? [=] | eauto].
  - unfold fmt_currency; cbn. destruct (Float.of_string s); cbn;
      (split; [intros _ ? [=] | eauto]).
Qed.

(** [fmt_number] takes the fallback for NaN, whose [int()] is a
    [ValueError]... *)
Lemma fmt_number_nan : fmt_number (VFloat S754_nan) = Ok "nan".
Proof. reflexivity. Qed.

Example fmt_not_numeric_example :
  fmt_currency (VStr "abc") = Ok "abc" /\ fmt_number (VStr "12abc") = Ok "12abc"
  /\ fmt_currency (VStr " 1_234.5 ") = Ok "1,234"
  /\ fmt_number (VInt 1234567) = Ok "1,234,567".
Proof. repeat split; vm_compute; reflexivity. Qed.

(** ... and formats every finite float. *)
Lemma fmt_number_finite s m e :
  returns (fmt_number (VFloat (S754_finite s m e))).
Proof. unfold returns, fmt_number; cbn. eauto. Qed.

(** [fmt_number] fails on exactly the values whose [float()] overflows or
    is infinite. *)
Lemma fmt_number_returns val :
  returns (fmt_number val) <->
  py_float val <> Raise OverflowError
  /\ (forall s, py_float val <> Ok (S754_infinity s)).
Proof.
  unfold returns, fmt_number.
  destruct (is_None val) eqn:En.
  - destruct val; try discriminate. cbn. split; [| eauto].
    intros _. split; [discriminate | intros s; discriminate].
  - destruct (py_float val) as [[s | s | | s m e] | []]; cbn; split.
    all: try (intros [a Ha]; split; [intros H | intros s' H];
              first [discriminate H | discriminate Ha]).
    all: intros [H1 H2].
    all: try (eexists; reflexivity).
    + exfalso. by apply (H2 s).
    + exfalso. by apply H1.
Qed.

(** C7 (evaluated where the claim fails). [fmt_number] raises
    [OverflowError] on an infinite float, as a float or as the string
    ["inf"], and [fmt_currency] raises it on an integer beyond the float
    range: the clause [except (TypeError, ValueError)] does not cover the
    error, so neither formatter is total. *)
Theorem formatters_raise_OverflowError :
  fmt_number (VFloat (S754_infinity false)) = Raise OverflowError
  /\ fmt_number (VStr "inf") = Raise OverflowError
  /\ fmt_currency (VInt (10 ^ 400)) = Raise OverflowError
  /\ fmt_number (VInt (10 ^ 400)) = Raise OverflowError.
Proof. repeat split; vm_compute; reflexivity. Qed.

(** C8. [fmt_currency(1234.5)] is ["1,234"], [fmt_currency(None)] is
    ["-"], [fmt_number(3.0)] is ["3"] and [fmt_number(3.5)] is ["3.50"]. *)
Theorem fmt_examples :
  fmt_currency (VFloat (Float.of_decimal false 12345 (-1))) = Ok "1,234"
  /\ fmt_currency VNone = Ok "-"
  /\ fmt_number (VFloat (Float.of_decimal false 3 0)) = Ok "3"
  /\ fmt_number (VFloat (Float.of_decimal false 35 (-1))) = Ok "3.50".
Proof. repeat split; vm_compute; reflexivity. Qed.

(** C10. [val_or_dash] gives the dash for [None] and for the empty string
    and for nothing else: every other value comes back as [str(val)]; in
    particular [val_or_dash(0)] is ["0"]. *)
Theorem val_or_dash_spec :
  (forall val,
     (val_or_dash val = "-" /\ (val = VNone \/ val = VStr ""))
     \/ (val_or_dash val = py_str val /\ val <> VNone /\ val <> VStr ""))
  /\ val_or_dash (VInt 0) = "0".
Proof.
  split; [| reflexivity].
  intros [| n | x | s].
  - left; auto.
  - right; repeat split; discriminate.
  - right; repeat split; discriminate.
  - destruct s as [| c s].
    + left; auto.
    + right; repeat split; discriminate.
Qed.

(** ** Blok keys *)

(** C3. ["B432R1K3"] is section ["B432"], row ["1"], column ["K3"];
    ["B6R8"] is section ["B6"], row ["8"], column ["K4"]; ["B5AK5J"] is
    section ["B5A"], row ["1"], column ["K5"]: by the classifier and the
    address patterns, and in the table [parse_blok_data] builds from a
    record holding that one field. *)
Theorem classify_examples :
  (classify_blok_key "B432R1K3" = Some "B432"
   /\ address (suffix_from 4 "B432R1K3") = Some ("1", "K3"))
  /\ (classify_blok_key "B6R8" = Some "B6"
      /\ address (suffix_from 2 "B6R8") = Some ("8", "K4"))
  /\ (classify_blok_key "B5AK5J" = Some "B5A"
      /\ address (suffix_from 3 "B5AK5J") = Some ("1", "K5"))
  /\ (forall v, parse_blok_data [("B432R1K3", v)]
        = if is_None v then [] else [("B432", [("1", [("K3", v)])])])
  /\ (forall v, parse_blok_data [("B6R8", v)]
        = if is_None v then [] else [("B6", [("8", [("K4", v)])])])
  /\ (forall v, parse_blok_data [("B5AK5J", v)]
        = if is_None v then [] else [("B5A", [("1", [("K5", v)])])]).
Proof.
  repeat split; try (vm_compute; reflexivity); intros []; reflexivity.
Qed.

(** C4. In a blok with sub-rows (B5E, B5G) the row keys 1, 2, 11, 13, in
    whatever order the table holds them, are sorted as 1, 11, 13, 2 and
    labelled R1, R1.1, R1.3, R2. *)
Theorem sort_rows_sub_rows (blok_name : string) (row_keys : list string) :
  blok_name ∈ SUB_ROW_BLOKS ->
  row_keys ≡ₚ ["1"; "2"; "11"; "13"] ->
  sort_rows blok_name row_keys = Ok ["1"; "11"; "13"; "2"]
  /\ map (row_label blok_name) ["1"; "11"; "13"; "2"]
     = ["R1"; "R1.1"; "R1.3"; "R2"].
Proof.
  intros Hb Hp.
  assert (Hk : forallb (fun l => forallb (fun b =>
              match sort_rows b l with
              | Ok r => bool_decide (r = ["1"; "11"; "13"; "2"])
              | Raise _ => false
              end) ["B5E"; "B5G"]) (permutations ["1"; "2"; "11"; "13"]) = true)
    by (vm_compute; reflexivity).
  assert (Hb' : In blok_name ["B5E"; "B5G"]).
  { unfold SUB_ROW_BLOKS in Hb.
    rewrite elem_of_union, !elem_of_singleton in Hb.
    destruct Hb as [-> | ->]; simpl; auto. }
  split.
  - rewrite forallb_forall in Hk.
    specialize (Hk row_keys).
    rewrite forallb_forall in Hk.
    specialize (Hk ltac:(apply list_elem_of_In; by apply permutations_Permutation)
                   blok_name Hb').
    destruct (sort_rows blok_name row_keys); [| discriminate].
    apply bool_decide_eq_true_1 in Hk. by subst.
  - destruct Hb' as [<- | [<- | []]]; vm_compute; reflexivity.
Qed.

Lemma sort_rows_sub_rows_witness :
  sort_rows "B5G" ["2"; "13"; "1"; "11"] = Ok ["1"; "11"; "13"; "2"]
  /\ map (row_label "B5G") ["1"; "11"; "13"; "2"]
     = ["R1"; "R1.1"; "R1.3"; "R2"].
Proof.
  apply (sort_rows_sub_rows "B5G" ["2"; "13"; "1"; "11"]).
  - vm_compute. reflexivity.
  - apply (bool_decide_unpack _). vm_compute. exact I.
Defined.

(** ** Stable sorting *)

Section StableSortFacts.
Context {A K : Type} (key : A -> K) (lt : K -> K -> bool).

Lemma insert_by_Permutation x l : insert_by key lt x l ≡ₚ x :: l.
Proof.
  induction l as [| y r IH]; simpl; [done |].
  destruct (lt (key y) (key x)); [| done].
  rewrite IH. apply Permutation_swap.
Qed.

Lemma sort_by_Permutation l : sort_by key lt l ≡ₚ l.
Proof.
  induction l as [| x r IH]; simpl; [done |].
  rewrite insert_by_Permutation. by rewrite IH.
Qed.

Hypothesis lt_asym : forall a b, lt a b = true -> lt b a = false.
Hypothesis not_lt_trans :
  forall a b c, lt b a = false -> lt c b = false -> lt c a = false.

Lemma insert_by_sorted x l :
  StronglySorted (not_after key lt) l -> StronglySorted (not_after key lt) (insert_by key lt x l).
Proof.
  induction 1 as [| y r Hs IH Hy]; simpl.
  - repeat constructor.
  - destruct (lt (key y) (key x)) eqn:E.
    + constructor; [exact IH |].
      rewrite insert_by_Permutation. constructor; [| exact Hy].
      by apply lt_asym.
    + constructor; [by constructor |].
      constructor; [exact E |].
      eapply Forall_impl; [exact Hy |].
      intros z Hz. eapply not_lt_trans; [exact E | exact Hz].
Qed.

Lemma sort_by_sorted l : StronglySorted (not_after key lt) (sort_by key lt l).
Proof.
  induction l as [| x r IH]; simpl; [constructor |].
  by apply insert_by_sorted.
Qed.

(** Sorting what is sorted changes nothing. *)
Lemma sort_by_sorted_id l : StronglySorted (not_after key lt) l -> sort_by key lt l = l.
Proof.
  induction 1 as [| x r Hs IH Hx]; simpl; [done |].
  rewrite IH. destruct r as [| y r']; simpl; [done |].
  apply Forall_cons in Hx as [Hxy _]. unfold not_after in Hxy.
  by rewrite Hxy.
Qed.

(** Stability: the elements with the key of [c] keep the order they have
    in the input. *)
Lemma insert_by_same_key c x l :
  StronglySorted (not_after key lt) l ->
  List.filter (same_key key lt c) (insert_by key lt x l)
  = List.filter (same_key key lt c) (x :: l).
Proof.
  induction 1 as [| y r Hs IH Hy]; [done |].
  cbn [insert_by]. destruct (lt (key y) (key x)) eqn:E; [| done].
  cbn [List.filter] in *. rewrite IH.
  destruct (same_key key lt c x) eqn:Ex; [| done].
  destruct (same_key key lt c y) eqn:Ey; [| done].
  exfalso. unfold same_key in Ex, Ey.
  apply andb_prop in Ex as [Ex1 Ex2], Ey as [Ey1 Ey2].
  apply negb_true_iff in Ex1, Ex2, Ey1, Ey2.
  by rewrite (not_lt_trans _ _ _ Ex1 Ey2) in E.
Qed.

Lemma sort_by_stable c l :
  List.filter (same_key key lt c) (sort_by key lt l)
  = List.filter (same_key key lt c) l.
Proof.
  induction l as [| x r IH]; [done |].
  cbn [sort_by foldr]. rewrite insert_by_same_key by apply sort_by_sorted.
  cbn [List.filter]. fold (sort_by key lt r). by rewrite IH.
Qed.
End StableSortFacts.

(** ** The order on sort keys *)

Lemma ascii_compare_trans a b c :
  Ascii.compare a b = Lt -> Ascii.compare b c = Lt -> Ascii.compare a c = Lt.
Proof. unfold Ascii.compare. rewrite !N.compare_lt_iff. lia. Qed.

Lemma ascii_compare_refl a : Ascii.compare a a = Eq.
Proof. unfold Ascii.compare. apply N.compare_refl. Qed.

Lemma string_compare_refl s : String.compare s s = Eq.
Proof.
  induction s as [| a s IH]; simpl; [done |]. by rewrite ascii_compare_refl.
Qed.

Lemma string_compare_Eq s t : String.compare s t = Eq <-> s = t.
Proof.
  split; [apply String.compare_eq_iff | intros ->; apply string_compare_refl].
Qed.

Lemma string_compare_trans s t u :
  String.compare s t = Lt -> String.compare t u = Lt -> String.compare s u = Lt.
Proof.
  revert t u. induction s as [| a s IH]; intros [| b t] [| c u]; simpl; try done.
  destruct (Ascii.compare a b) eqn:Eab; try done;
    destruct (Ascii.compare b c) eqn:Ebc; try done.
  - apply Ascii.compare_eq_iff in Eab, Ebc. subst.
    rewrite ascii_compare_refl. apply IH.
  - apply Ascii.compare_eq_iff in Eab. subst. by rewrite Ebc.
  - apply Ascii.compare_eq_iff in Ebc. subst. by rewrite Eab.
  - by rewrite (ascii_compare_trans _ _ _ Eab Ebc).
Qed.

Lemma string_compare_Gt s t : String.compare s t = Gt <-> String.compare t s = Lt.
Proof.
  rewrite (String.compare_antisym t s).
  destruct (String.compare s t); simpl; split; congruence.
Qed.

(** [tuple_lt] is the strict lexicographic order. *)
Lemma tuple_lt_true a b :
  tuple_lt a b = true <->
  String.compare (fst a) (fst b) = Lt \/ (fst a = fst b /\ snd a < snd b).
Proof.
  unfold tuple_lt. destruct (String.eqb_spec (fst a) (fst b)) as [-> | Hne].
  - rewrite string_compare_refl, Z.ltb_lt. intuition congruence.
  - unfold String.ltb.
    destruct (String.compare (fst a) (fst b)); intuition congruence.
Qed.

Lemma tuple_lt_false a b :
  tuple_lt b a = false <->
  String.compare (fst a) (fst b) = Lt \/ (fst a = fst b /\ snd a <= snd b).
Proof.
  unfold tuple_lt. destruct (String.eqb_spec (fst b) (fst a)) as [-> | Hne].
  - rewrite string_compare_refl, Z.ltb_ge. intuition congruence.
  - unfold String.ltb. rewrite (String.compare_antisym (fst a) (fst b)).
    destruct (String.compare (fst b) (fst a)) eqn:E; simpl.
    + apply String.compare_eq_iff in E. congruence.
    + intuition congruence.
    + intuition congruence.
Qed.

Lemma tuple_lt_asym a b : tuple_lt a b = true -> tuple_lt b a = false.
Proof.
  rewrite tuple_lt_true, tuple_lt_false. intros [H | [H1 H2]]; [by left |].
  right. split; [done | lia].
Qed.

Lemma tuple_not_lt_trans a b c :
  tuple_lt b a = false -> tuple_lt c b = false -> tuple_lt c a = false.
Proof.
  rewrite !tuple_lt_false.
  intros [H1 | [H1 H1']] [H2 | [H2 H2']].
  - left. eapply string_compare_trans; eassumption.
  - left. by rewrite <- H2.
  - left. by rewrite H1.
  - right. split; [congruence | lia].
Qed.

Lemma not_after_key_le a b :
  not_after individu_key tuple_lt a b <-> key_le a b.
Proof. unfold not_after, key_le. by rewrite tuple_lt_false. Qed.

(** ** Komoditi split *)

Lemma StronglySorted_weaken {A} (R R' : A -> A -> Prop) l :
  (forall a b, R a b -> R' a b) -> StronglySorted R l -> StronglySorted R' l.
Proof.
  intros HR. induction 1 as [| x r Hs IH Hx]; constructor; [exact IH |].
  eapply Forall_impl; [exact Hx | apply HR].
Qed.

Lemma elem_of_List_filter {A} (f : A -> bool) (l : list A) x :
  x ∈ List.filter f l <-> x ∈ l /\ f x = true.
Proof. rewrite !list_elem_of_In. apply filter_In. Qed.

Lemma sublist_List_filter {A} (f : A -> bool) (l : list A) :
  sublist (List.filter f l) l.
Proof.
  induction l as [| x r IH]; simpl; [constructor |].
  destruct (f x); by constructor.
Qed.

(** The three ranges split the integers: each line is in one range. *)
Lemma one_range k :
  (is_makanan k = true /\ is_individu k = false /\ is_non_makanan k = false)
  \/ (is_makanan k = false /\ is_individu k = true /\ is_non_makanan k = false)
  \/ (is_makanan k = false /\ is_individu k = false /\ is_non_makanan k = true).
Proof.
  unfold is_makanan, is_individu, is_non_makanan.
  destruct (Z.ltb_spec (NoUrut_or_0 k) 186), (Z.leb_spec 186 (NoUrut_or_0 k)),
    (Z.ltb_spec (NoUrut_or_0 k) 226), (Z.leb_spec 226 (NoUrut_or_0 k));
    simpl; auto; lia.
Qed.

Lemma ranges_Permutation (l : list komoditi) :
  List.filter is_makanan l ++ List.filter is_individu l
    ++ List.filter is_non_makanan l ≡ₚ l.
Proof.
  induction l as [| k r IH]; simpl; [done |].
  destruct (one_range k) as [(-> & -> & ->) | [(-> & -> & ->) | (-> & -> & ->)]];
    simpl.
  - by rewrite IH.
  - rewrite <- Permutation_middle. by rewrite IH.
  - rewrite app_assoc, <- Permutation_middle, <- app_assoc. by rewrite IH.
Qed.

(** What is in each bucket. *)
Lemma split_komoditi_elem_of rows k :
  (k ∈ (split_komoditi rows).1.1 <->
     k ∈ rows /\ has_any_value k = true /\ is_makanan k = true)
  /\ (k ∈ (split_komoditi rows).1.2 <->
     k ∈ rows /\ has_any_value k = true /\ is_individu k = true)
  /\ (k ∈ (split_komoditi rows).2 <->
     k ∈ rows /\ has_any_value k = true /\ is_non_makanan k = true).
Proof.
  unfold split_komoditi; simpl.
  rewrite sort_by_Permutation, !elem_of_List_filter. tauto.
Qed.

(** [has_any_value] looks at the fourteen value columns and at nothing
    else. *)
Lemma has_any_value_with_value k : has_any_value k = true <-> with_value k.
Proof.
  unfold has_any_value, with_value. rewrite existsb_exists. split.
  - intros (i & Hi & Hv). apply in_seq in Hi. exists i. split; [lia |].
    intros E. by rewrite E in Hv.
  - intros (i & Hi & Hv). exists i. split; [apply in_seq; lia |].
    by destruct (Kolom k i).
Qed.

Lemma has_any_value_without_value k :
  has_any_value k = false <-> ~ with_value k.
Proof.
  rewrite <- has_any_value_with_value. by destruct (has_any_value k).
Qed.

Lemma List_filter_complement {A} (f : A -> bool) (l : list A) :
  l ≡ₚ List.filter f l ++ List.filter (fun x => negb (f x)) l.
Proof.
  induction l as [| x l IH]; simpl; [done |].
  destruct (f x); simpl.
  - by rewrite <- IH.
  - rewrite <- Permutation_middle. by rewrite <- IH.
Qed.

(** C2. The three buckets are pairwise disjoint. Together they hold
    exactly the lines of the input that have a value in one of the
    fourteen slots, each as often as the input holds it: the input is the
    three buckets and, besides them, lines without any value. A line with
    a sequence number below 186 can be in the food bucket only, and is
    there as soon as it is a line of the input with a value; a line
    without any value is in no bucket. *)
Theorem split_komoditi_partition (komoditi_rows : list komoditi) :
  let '(makanan, individu, non_makanan) := split_komoditi komoditi_rows in
  (forall k, ~ (k ∈ makanan /\ k ∈ individu))
  /\ (forall k, ~ (k ∈ makanan /\ k ∈ non_makanan))
  /\ (forall k, ~ (k ∈ individu /\ k ∈ non_makanan))
  /\ (exists without,
        komoditi_rows ≡ₚ (makanan ++ individu ++ non_makanan) ++ without
        /\ Forall with_value (makanan ++ individu ++ non_makanan)
        /\ Forall (fun k => ~ with_value k) without)
  /\ (forall k n, NoUrutKomoditiFK k = Some n -> n < 186 ->
        (k ∈ makanan <-> k ∈ komoditi_rows /\ with_value k)
        /\ (k ∉ individu) /\ (k ∉ non_makanan))
  /\ (forall k, ~ with_value k ->
        (k ∉ makanan) /\ (k ∉ individu) /\ (k ∉ non_makanan)).
Proof.
  pose proof (split_komoditi_elem_of komoditi_rows) as Hin.
  destruct (split_komoditi komoditi_rows) as [[makanan individu] non_makanan] eqn:E.
  simpl in Hin.
  assert (Hex : forall k,
    (k ∈ makanan -> k ∈ individu -> False)
    /\ (k ∈ makanan -> k ∈ non_makanan -> False)
    /\ (k ∈ individu -> k ∈ non_makanan -> False)).
  { intros k. destruct (Hin k) as (H1 & H2 & H3). rewrite H1, H2, H3.
    destruct (one_range k) as [? | [? | ?]]; intuition congruence. }
  assert (Hperm : makanan ++ individu ++ non_makanan
                    ≡ₚ List.filter has_any_value komoditi_rows).
  { unfold split_komoditi in E. injection E as <- <- <-.
    rewrite sort_by_Permutation. apply ranges_Permutation. }
  split; [intros k [? ?]; destruct (Hex k); tauto |].
  split; [intros k [? ?]; destruct (Hex k); tauto |].
  split; [intros k [? ?]; destruct (Hex k); tauto |].
  split; [| split].
  - exists (List.filter (fun k => negb (has_any_value k)) komoditi_rows).
    split; [| split].
    + rewrite Hperm. apply List_filter_complement.
    + apply Forall_forall. intros k Hk. rewrite Hperm in Hk.
      apply elem_of_List_filter in Hk as [_ Hk].
      by apply has_any_value_with_value.
    + apply Forall_forall. intros k Hk.
      apply elem_of_List_filter in Hk as [_ Hk].
      apply has_any_value_without_value. by destruct (has_any_value k).
  - intros k n Hn Hlt.
    assert (Hm : is_makanan k = true).
    { unfold is_makanan, NoUrut_or_0. rewrite Hn. simpl. by apply Z.ltb_lt. }
    destruct (Hin k) as (H1 & H2 & H3).
    destruct (one_range k) as [? | [? | ?]]; [| intuition congruence..].
    rewrite <- has_any_value_with_value, H1, H2, H3. intuition congruence.
  - intros k Hk. apply has_any_value_without_value in Hk.
    destruct (Hin k) as (H1 & H2 & H3).
    rewrite H1, H2, H3. intuition congruence.
Qed.

(** C6. A line without a sequence number counts as number 0, in the range
    tests and in the sort key alike: it passes the food test and fails the
    other two, so the food bucket is the only bucket it is placed in, and
    it is placed there as soon as it is a line of the input with a value
    in some slot. *)
Theorem absent_NoUrut_is_makanan (komoditi_rows : list komoditi) (k : komoditi) :
  NoUrutKomoditiFK k = None ->
  NoUrut_or_0 k = 0
  /\ snd (individu_key k) = 0
  /\ is_makanan k = true /\ is_individu k = false /\ is_non_makanan k = false
  /\ (let '(makanan, individu, non_makanan) := split_komoditi komoditi_rows in
      (k ∈ makanan <-> k ∈ komoditi_rows /\ has_any_value k = true)
      /\ (k ∉ individu) /\ (k ∉ non_makanan)).
Proof.
  intros Hn.
  assert (H0 : NoUrut_or_0 k = 0) by (unfold NoUrut_or_0; by rewrite Hn).
  assert (Hr : is_makanan k = true /\ is_individu k = false
               /\ is_non_makanan k = false).
  { unfold is_makanan, is_individu, is_non_makanan. by rewrite H0. }
  split; [exact H0 |]. split; [exact H0 |].
  destruct Hr as (Hm & Hi & Hnm).
  split; [exact Hm |]. split; [exact Hi |]. split; [exact Hnm |].
  pose proof (split_komoditi_elem_of komoditi_rows k) as Hin.
  destruct (split_komoditi komoditi_rows) as [[makanan individu] non_makanan].
  simpl in Hin. destruct Hin as (H1 & H2 & H3).
  rewrite H1, H2, H3. intuition congruence.
Qed.

(** The order of the sort key is the order of the composite key. *)
Lemma key_le_composite_le a b : key_le a b <-> composite_le a b.
Proof.
  unfold key_le, composite_le, IDART_or_empty, NoUrut_or_0, personId,
    sequenceNumber.
  by destruct (IDART a), (IDART b), (NoUrutKomoditiFK a), (NoUrutKomoditiFK b).
Qed.

(** C9. The food and the non-food bucket keep the order of the input: each
    is a subsequence of it. The individual bucket is reordered: it holds
    the lines of a subsequence of the input, in the order of the composite
    key (personId, sequenceNumber), every line before the lines with a
    larger person id and, for the same person id, before the lines with a
    larger sequence number. *)
Theorem split_komoditi_order (komoditi_rows : list komoditi) :
  let '(makanan, individu, non_makanan) := split_komoditi komoditi_rows in
  sublist makanan komoditi_rows
  /\ sublist non_makanan komoditi_rows
  /\ (exists lines, sublist lines komoditi_rows /\ individu ≡ₚ lines)
  /\ StronglySorted composite_le individu.
Proof.
  unfold split_komoditi. split; [| split; [| split]].
  - etransitivity; apply sublist_List_filter.
  - etransitivity; apply sublist_List_filter.
  - exists (List.filter is_individu (List.filter has_any_value komoditi_rows)).
    split; [etransitivity; apply sublist_List_filter |].
    apply sort_by_Permutation.
  - eapply StronglySorted_weaken; [| apply sort_by_sorted].
    + intros a b Hab. apply key_le_composite_le. by apply not_after_key_le.
    + apply tuple_lt_asym.
    + apply tuple_not_lt_trans.
Qed.

(** ** Person numbering *)

Lemma existsb_eqb_elem_of (x : string) (l : list string) :
  existsb (String.eqb x) l = true <-> x ∈ l.
Proof.
  rewrite existsb_exists, list_elem_of_In. split.
  - intros (y & Hy & E). apply String.eqb_eq in E. by subst.
  - intros H. exists x. split; [done | apply String.eqb_refl].
Qed.

Lemma existsb_eqb_not_elem_of (x : string) (l : list string) :
  existsb (String.eqb x) l = false <-> x ∉ l.
Proof.
  rewrite <- existsb_eqb_elem_of. destruct (existsb _ l); split; congruence.
Qed.

(** The loop of [build_idart_map] computes the first appearances. *)
Lemma seen_idart_fold (individu : list komoditi) (seen : list string) :
  fold_left
    (fun seen item =>
       if fresh_idart seen (IDART item)
       then seen ++ [default "" (IDART item)] else seen)
    individu seen
  = seen ++ first_appearances seen (person_ids individu).
Proof.
  revert seen. induction individu as [| item r IH]; intros seen; simpl.
  - by rewrite app_nil_r.
  - rewrite IH. unfold person_ids; simpl. unfold has_person, fresh_idart.
    destruct (IDART item) as [s |]; simpl; [| done].
    destruct (String.eqb s ""); simpl; [done |].
    destruct (existsb (String.eqb s) seen); simpl; [done |].
    by rewrite <- app_assoc.
Qed.

Lemma seen_idart_first_appearances individu :
  seen_idart individu = first_appearances [] (person_ids individu).
Proof. unfold seen_idart. by rewrite seen_idart_fold. Qed.

Lemma elem_of_first_appearances seen ids x :
  x ∈ first_appearances seen ids <-> x ∈ ids /\ x ∉ seen.
Proof.
  revert seen. induction ids as [| y r IH]; intros seen; simpl.
  - rewrite elem_of_nil. tauto.
  - destruct (existsb (String.eqb y) seen) eqn:E.
    + apply existsb_eqb_elem_of in E. rewrite IH, elem_of_cons.
      split; [tauto |]. intros [[-> | H] Hn]; tauto.
    + apply existsb_eqb_not_elem_of in E.
      rewrite !elem_of_cons, IH, elem_of_app, list_elem_of_singleton.
      destruct (decide (x = y)) as [-> | Hne]; tauto.
Qed.

Lemma NoDup_first_appearances seen ids : NoDup (first_appearances seen ids).
Proof.
  revert seen. induction ids as [| y r IH]; intros seen; simpl.
  - constructor.
  - destruct (existsb (String.eqb y) seen); [apply IH |].
    constructor; [| apply IH].
    rewrite elem_of_first_appearances, elem_of_app, list_elem_of_singleton. tauto.
Qed.

Lemma first_pos_is_Some x ids : x ∈ ids -> is_Some (first_pos x ids).
Proof.
  induction ids as [| y r IH]; simpl; [by rewrite elem_of_nil |].
  rewrite elem_of_cons. intros H.
  destruct (String.eqb_spec x y) as [-> | Hne]; [by eexists |].
  destruct IH as [p Hp]; [tauto |]. rewrite Hp. by eexists.
Qed.

(** Earlier in the list of first appearances means first seen earlier. *)
Lemma first_appearances_order seen ids (i j : nat) a b :
  first_appearances seen ids !! i = Some a ->
  first_appearances seen ids !! j = Some b ->
  (i < j)%nat ->
  exists p q, first_pos a ids = Some p /\ first_pos b ids = Some q /\ (p < q)%nat.
Proof.
  revert seen i j. induction ids as [| y r IH]; intros seen i j; simpl; [done |].
  destruct (existsb (String.eqb y) seen) eqn:E.
  - intros Ha Hb Hij. apply existsb_eqb_elem_of in E.
    destruct (IH _ _ _ Ha Hb Hij) as (p & q & Hp & Hq & Hpq).
    assert (a <> y /\ b <> y) as [Hay Hby].
    { apply list_elem_of_lookup_2 in Ha, Hb.
      apply elem_of_first_appearances in Ha, Hb. split; intros ->; tauto. }
    apply String.eqb_neq in Hay, Hby. rewrite Hay, Hby, Hp, Hq.
    exists (S p), (S q). repeat split; lia.
  - destruct i as [| i], j as [| j]; simpl; try lia.
    + intros [= <-] Hb _. rewrite String.eqb_refl.
      apply list_elem_of_lookup_2, elem_of_first_appearances in Hb as [Hb Hn].
      rewrite elem_of_app, list_elem_of_singleton in Hn.
      assert (Hne : b <> y) by tauto.
      apply String.eqb_neq in Hne. rewrite Hne.
      destruct (first_pos_is_Some _ _ Hb) as [q Hq]. rewrite Hq.
      exists O, (S q). repeat split; lia.
    + intros Ha Hb Hij.
      destruct (IH _ _ _ Ha Hb ltac:(lia)) as (p & q & Hp & Hq & Hpq).
      assert (a <> y /\ b <> y) as [Hay Hby].
      { apply list_elem_of_lookup_2 in Ha, Hb.
        apply elem_of_first_appearances in Ha, Hb.
        rewrite elem_of_app, list_elem_of_singleton in Ha, Hb.
        split; intros ->; tauto. }
      apply String.eqb_neq in Hay, Hby. rewrite Hay, Hby, Hp, Hq.
      exists (S p), (S q). repeat split; lia.
Qed.

(** The dictionary comprehension numbers a duplicate-free list by
    position, from 1. *)
Lemma numbering_lookup (l : list string) (id : string) (n : Z) :
  NoDup l ->
  fold_left (fun (m : gmap string Z) '(idx, idart) => <[idart := idx + 1]> m)
            (imap (fun idx idart => (Z.of_nat idx, idart)) l) ∅ !! id = Some n
  <-> exists i : nat, l !! i = Some id /\ n = Z.of_nat i + 1.
Proof.
  induction l as [| x l IH] using rev_ind; intros Hnd.
  - simpl. rewrite lookup_empty. split; [done | by intros (i & ? & _)].
  - apply NoDup_app in Hnd as (Hnd & Hx & _).
    rewrite imap_app, fold_left_app. simpl. rewrite Nat.add_0_r.
    destruct (decide (x = id)) as [-> | Hne].
    + rewrite lookup_insert_eq. split.
      * intros [= <-]. exists (length l). split; [| done].
        by rewrite list_lookup_middle.
      * intros (i & Hi & ->). apply lookup_snoc_Some in Hi as [[Hlt Hi] | [-> _]].
        -- exfalso. apply (Hx id); [by eapply list_elem_of_lookup_2 | by left].
        -- done.
    + rewrite lookup_insert_ne by done. rewrite IH by done. split.
      * intros (i & Hi & ->). exists i. split; [| done].
        rewrite lookup_app_l; [done |]. by eapply lookup_lt_Some.
      * intros (i & Hi & ->). exists i. split; [| done].
        apply lookup_snoc_Some in Hi as [[_ Hi] | [_ E]]; [done | congruence].
Qed.

Lemma build_idart_map_lookup individu id n :
  build_idart_map individu !! id = Some n
  <-> exists i : nat, seen_idart individu !! i = Some id /\ n = Z.of_nat i + 1.
Proof.
  unfold build_idart_map. apply numbering_lookup.
  rewrite seen_idart_first_appearances. apply NoDup_first_appearances.
Qed.

Lemma elem_of_seen_idart individu id :
  id ∈ seen_idart individu <-> id ∈ person_ids individu.
Proof.
  rewrite seen_idart_first_appearances, elem_of_first_appearances, elem_of_nil.
  tauto.
Qed.

Lemma length_seen_idart individu :
  Z.of_nat (length (seen_idart individu)) = distinct_persons individu.
Proof.
  unfold distinct_persons. f_equal.
  rewrite <- (size_list_to_set (C := gset string) (seen_idart individu)).
  - f_equal. apply set_eq. intros x.
    by rewrite !elem_of_list_to_set, elem_of_seen_idart.
  - rewrite seen_idart_first_appearances. apply NoDup_first_appearances.
Qed.

Lemma person_ids_not_empty individu : "" ∉ person_ids individu.
Proof.
  unfold person_ids. rewrite list_elem_of_omap.
  intros (item & _ & H). unfold has_person in H.
  destruct (IDART item) as [s |]; [| done].
  destruct (String.eqb_spec s ""); simpl in H; congruence.
Qed.

Lemma person_ids_skip l1 item l2 :
  has_person item = false ->
  person_ids (l1 ++ item :: l2) = person_ids (l1 ++ l2).
Proof.
  intros H. unfold person_ids. rewrite !omap_app. simpl. by rewrite H.
Qed.

Lemma build_idart_map_person_ids l l' :
  person_ids l = person_ids l' -> build_idart_map l = build_idart_map l'.
Proof.
  intros H. unfold build_idart_map.
  by rewrite !seen_idart_first_appearances, H.
Qed.

(** C5. [build_idart_map] is a bijection from the person ids of the list
    (present, not empty) onto 1..N, N the number of different ids; the
    numbers follow the order in which the ids first appear; a line without
    a person id is shown the dash and takes no number away from the
    others; the same list gives the same mapping, also when it is sorted
    once more. *)
Theorem build_idart_map_bijection (individu : list komoditi) :
  let m := build_idart_map individu in
  let ids := person_ids individu in
  let N := distinct_persons individu in
  (forall id, is_Some (m !! id) <-> id ∈ ids)
  /\ (forall id n, m !! id = Some n -> 1 <= n <= N)
  /\ (forall a b n, m !! a = Some n -> m !! b = Some n -> a = b)
  /\ (forall n, 1 <= n <= N -> exists id, m !! id = Some n)
  /\ (forall a b na nb i j,
        m !! a = Some na -> m !! b = Some nb ->
        first_pos a ids = Some i -> first_pos b ids = Some j ->
        (na < nb <-> (i < j)%nat))
  /\ (forall item, has_person item = false -> ART m item = inr "-")
  /\ (forall item, item ∈ individu -> has_person item = true ->
        exists n, ART m item = inl n)
  /\ (forall l1 item l2, individu = l1 ++ item :: l2 ->
        has_person item = false -> build_idart_map (l1 ++ l2) = m)
  /\ (forall m', m' = build_idart_map individu -> m' = m)
  /\ (StronglySorted key_le individu ->
        build_idart_map (sort_by individu_key tuple_lt individu) = m).
Proof.
  intros m ids N.
  assert (Hdom : forall id, is_Some (m !! id) <-> id ∈ ids).
  { intros id. unfold ids. rewrite <- elem_of_seen_idart, list_elem_of_lookup.
    unfold is_Some. split.
    - intros [n Hn]. apply build_idart_map_lookup in Hn as (i & Hi & _). eauto.
    - intros [i Hi]. exists (Z.of_nat i + 1).
      apply build_idart_map_lookup. eauto. }
  assert (Hord : forall a b na nb i j,
            m !! a = Some na -> m !! b = Some nb ->
            first_pos a ids = Some i -> first_pos b ids = Some j ->
            na < nb -> (i < j)%nat).
  { intros a b na nb i j Ha Hb Hi Hj Hlt.
    apply build_idart_map_lookup in Ha as (ia & Ha & ->).
    apply build_idart_map_lookup in Hb as (ib & Hb & ->).
    rewrite seen_idart_first_appearances in Ha, Hb.
    destruct (first_appearances_order [] _ ia ib a b Ha Hb ltac:(lia))
      as (p & q & Hp & Hq & Hpq).
    fold ids in Hp, Hq. congruence. }
  assert (Hinj : forall a b n, m !! a = Some n -> m !! b = Some n -> a = b).
  { intros a b n Ha Hb.
    apply build_idart_map_lookup in Ha as (ia & Ha & ->).
    apply build_idart_map_lookup in Hb as (ib & Hb & E).
    assert (ia = ib) as -> by lia. congruence. }
  split; [exact Hdom |]. split; [| split; [exact Hinj |]; split; [| split]].
  - intros id n Hn. apply build_idart_map_lookup in Hn as (i & Hi & ->).
    apply lookup_lt_Some in Hi. unfold N. rewrite <- length_seen_idart. lia.
  - intros n Hn. unfold N in Hn. rewrite <- length_seen_idart in Hn.
    destruct (lookup_lt_is_Some_2 (seen_idart individu) (Z.to_nat (n - 1)))
      as [id Hid]; [lia |].
    exists id. apply build_idart_map_lookup. exists (Z.to_nat (n - 1)).
    split; [done | lia].
  - intros a b na nb i j Ha Hb Hi Hj. split; [by eapply Hord |].
    intros Hij. destruct (Z.lt_trichotomy na nb) as [H | [H | H]]; [done | |].
    + subst nb. assert (a = b) as -> by (by eapply Hinj). 
      rewrite Hi in Hj. injection Hj as ->. lia.
    + pose proof (Hord b a nb na j i Hb Ha Hj Hi H). lia.
  - repeat split.
    + intros item Hp. unfold ART. unfold has_person in Hp.
      destruct (IDART item) as [s |]; [| done].
      destruct (String.eqb_spec s "") as [Hs | ?]; [| done].
      rewrite Hs.
      destruct (m !! "") eqn:E; [| done].
      exfalso. apply (person_ids_not_empty individu). apply Hdom. by eexists.
    + intros item Hin Hp. unfold ART.
      assert (Hs : exists s, IDART item = Some s).
      { unfold has_person in Hp. destruct (IDART item); [by eexists | done]. }
      destruct Hs as [s Hs]. rewrite Hs.
      destruct (Hdom s) as [_ [n Hn]].
      { unfold ids, person_ids. apply list_elem_of_omap.
        exists item. split; [done |]. by rewrite Hp. }
      rewrite Hn. by eexists.
    + intros l1 item l2 -> Hp. apply build_idart_map_person_ids.
      symmetry. by apply person_ids_skip.
    + by intros m' ->.
    + intros Hs. unfold m. f_equal. apply sort_by_sorted_id.
      eapply StronglySorted_weaken; [| exact Hs].
      intros a b. apply not_after_key_le.
Qed.

(** ** Dictionaries *)

Module ODictFacts.
Import ODict.

Lemma get_elem_of {V} k (v : V) d : get k d = Some v -> (k, v) ∈ d.
Proof.
  induction d as [| [k' v'] r IH]; simpl; [done |].
  destruct (String.eqb_spec k k') as [-> | Hne].
  - intros [= ->]. by left.
  - intros H. right. by apply IH.
Qed.

Lemma get_set_eq {V} k (v : V) d : get k (set k v d) = Some v.
Proof.
  induction d as [| [k' v'] r IH]; simpl.
  - by rewrite String.eqb_refl.
  - destruct (String.eqb_spec k k') as [-> | Hne]; simpl.
    + by rewrite String.eqb_refl.
    + apply String.eqb_neq in Hne. by rewrite Hne.
Qed.

Lemma get_set_ne {V} k k' (v : V) d : k <> k' -> get k' (set k v d) = get k' d.
Proof.
  intros Hne. induction d as [| [k2 v2] r IH]; simpl.
  - apply not_eq_sym, String.eqb_neq in Hne. by rewrite Hne.
  - destruct (String.eqb_spec k k2) as [-> | Hne2]; simpl.
    + apply not_eq_sym, String.eqb_neq in Hne. by rewrite Hne.
    + by rewrite IH.
Qed.

Lemma elem_of_set {V} k (v : V) d k' v' :
  (k', v') ∈ set k v d -> (k' = k /\ v' = v) \/ (k', v') ∈ d.
Proof.
  induction d as [| [k2 v2] r IH]; simpl.
  - rewrite list_elem_of_singleton. intros [= -> ->]. by left.
  - destruct (String.eqb_spec k k2) as [-> | Hne]; rewrite !elem_of_cons.
    + intros [[= -> ->] | H]; [by left | right; by right].
    + intros [H | H]; [right; by left |].
      destruct (IH H) as [? | ?]; [by left | right; by right].
Qed.

Lemma set_not_empty {V} k (v : V) d : set k v d <> [].
Proof. destruct d as [| [k' v'] r]; simpl; [done |]. by destruct (String.eqb k k'). Qed.

(** After [d.setdefault(k, {})[k2] = v], an entry of a table of [d]
    is the new one or was there before. *)
Lemma elem_of_set2 {V} k k2 (v : V) d k' t k2' v' :
  (k', t) ∈ set2 k k2 v d -> (k2', v') ∈ t ->
  (k' = k /\ k2' = k2 /\ v' = v)
  \/ exists t0, (k', t0) ∈ d /\ (k2', v') ∈ t0.
Proof.
  unfold set2. intros H Hin. apply elem_of_set in H as [[-> ->] | H].
  - apply elem_of_set in Hin as [[-> ->] | Hin]; [by left |].
    right. destruct (get k d) as [t0 |] eqn:E; simpl in Hin.
    + exists t0. split; [by apply get_elem_of | done].
    + by apply elem_of_nil in Hin.
  - right. by exists t.
Qed.

End ODictFacts.

(** ** Blok tables *)

(** Every entry of [blok_raw] is a field of its section. *)
Lemma collect_blok_raw_fields rekap blok_name data key v :
  (blok_name, data) ∈ collect_blok_raw rekap -> (key, v) ∈ data ->
  field_of rekap blok_name key v.
Proof.
  unfold collect_blok_raw, field_of.
  match goal with |- context [fold_left ?f] => set (step := f) end.
  assert (H : forall l done_ acc,
    (forall b d k x, (b, d) ∈ acc -> (k, x) ∈ d ->
       (k, x) ∈ done_ /\ classify_blok_key k = Some b) ->
    forall b d k x, (b, d) ∈ fold_left step l acc -> (k, x) ∈ d ->
       (k, x) ∈ done_ ++ l /\ classify_blok_key k = Some b).
  { induction l as [| [k0 v0] r IH]; intros done_ acc Hacc b d k x; simpl.
    - rewrite app_nil_r. apply Hacc.
    - replace (done_ ++ (k0, v0) :: r) with ((done_ ++ [(k0, v0)]) ++ r)
        by (by rewrite <- app_assoc).
      apply IH. clear b d k x. intros b d k x Hb Hk.
      rewrite elem_of_app, list_elem_of_singleton.
      destruct (classify_blok_key k0) as [b0 |] eqn:E.
      + destruct (String.eqb b0 "").
        * destruct (Hacc _ _ _ _ Hb Hk). tauto.
        * destruct (ODictFacts.elem_of_set2 _ _ _ _ _ _ _ _ Hb Hk)
            as [(-> & -> & ->) | (t0 & Ht0 & Hk0)]; [tauto |].
          destruct (Hacc _ _ _ _ Ht0 Hk0). tauto.
      + destruct (Hacc _ _ _ _ Hb Hk). tauto. }
  intros Hb Hk. apply (H rekap [] [] ltac:(by intros ???? ?%elem_of_nil) _ _ _ _ Hb Hk).
Qed.

(** Every table of the result is not empty and comes from a section
    with a value that is not [None]. *)
Lemma parse_blok_data_tables rekap blok_name rows :
  (blok_name, rows) ∈ parse_blok_data rekap ->
  rows <> [] /\
  exists data, (blok_name, data) ∈ collect_blok_raw rekap
               /\ any_not_None data = true.
Proof.
  unfold parse_blok_data.
  match goal with |- context [fold_left ?f] => set (step := f) end.
  set (raw := collect_blok_raw rekap).
  assert (H : forall l acc,
    (forall x, x ∈ l -> x ∈ raw) ->
    (forall b t, (b, t) ∈ acc ->
       t <> [] /\ exists d, (b, d) ∈ raw /\ any_not_None d = true) ->
    forall b t, (b, t) ∈ fold_left step l acc ->
       t <> [] /\ exists d, (b, d) ∈ raw /\ any_not_None d = true).
  { induction l as [| [b0 d0] r IH]; intros acc Hl Hacc; simpl; [exact Hacc |].
    apply IH; [intros x Hx; apply Hl; by right |].
    intros b t Hb.
    destruct (any_not_None d0) eqn:E; simpl in Hb; [| by apply Hacc].
    destruct (parse_rows b0 d0) as [| row rows'] eqn:Er; [by apply Hacc |].
    apply ODictFacts.elem_of_set in Hb as [[-> ->] | Hb]; [| by apply Hacc].
    split; [done |]. exists d0. split; [apply Hl; by left | done]. }
  apply H; [done | by intros ?? ?%elem_of_nil].
Qed.

Lemma any_not_None_elem_of data :
  any_not_None data = true -> exists key v, (key, v) ∈ data /\ v <> VNone.
Proof.
  unfold any_not_None, ODict.values. rewrite existsb_exists.
  intros (v & Hv & Hn). apply in_map_iff in Hv as ([key v'] & <- & Hin).
  exists key, v'. split; [by apply list_elem_of_In |].
  simpl in Hn. by destruct v'.
Qed.

(** C1 (as the code has it). A section of the result maps to a row table
    that is not empty, and the record has a field of that section whose
    value is not [None]; a section all of whose fields are [None] is not
    in the result. *)
Theorem parse_blok_data_sections (rekap : ODict.t value) (blok_name : string) :
  (forall rows, ODict.get blok_name (parse_blok_data rekap) = Some rows ->
     rows <> [] /\ exists key v, field_of rekap blok_name key v /\ v <> VNone)
  /\ ((forall key v, field_of rekap blok_name key v -> v = VNone) ->
      ODict.get blok_name (parse_blok_data rekap) = None).
Proof.
  assert (H : forall rows,
    ODict.get blok_name (parse_blok_data rekap) = Some rows ->
    rows <> [] /\ exists key v, field_of rekap blok_name key v /\ v <> VNone).
  { intros rows Hg. apply ODictFacts.get_elem_of in Hg.
    apply parse_blok_data_tables in Hg as (Hne & data & Hd & Hany).
    split; [exact Hne |].
    apply any_not_None_elem_of in Hany as (key & v & Hk & Hv).
    exists key, v. split; [| exact Hv].
    by eapply collect_blok_raw_fields. }
  split; [exact H |].
  intros Hall. destruct (ODict.get blok_name (parse_blok_data rekap)) as [rows |] eqn:E;
    [| done].
  destruct (H rows eq_refl) as (_ & key & v & Hf & Hv).
  by apply Hall in Hf.
Qed.

Lemma parse_blok_data_sections_witness :
  ODict.get "B6" (parse_blok_data [("B6R7", VNone); ("B7R7", VInt 9); ("B6R8", VNone)])
  = None.
Proof.
  apply (parse_blok_data_sections
           [("B6R7", VNone); ("B7R7", VInt 9); ("B6R8", VNone)] "B6").
  intros key v [Hin Hc].
  repeat (apply elem_of_cons in Hin as [[= -> ->] | Hin];
          [first [reflexivity | vm_compute in Hc; discriminate] |]).
  by apply elem_of_nil in Hin.
Defined.

(** C1 (as stated) fails: the field [B6RX] has a value and no address, the
    field [B6R8] has an address and no value, and the row table of B6
    holds [None] only. *)
Lemma parse_blok_data_RowTable_without_value :
  ~ (forall rekap blok_name rows,
       ODict.get blok_name (parse_blok_data rekap) = Some rows ->
       rows <> [] /\ RowTable_has_value rows).
Proof.
  intros H.
  destruct (H [("B6RX", VInt 5); ("B6R8", VNone)] "B6" [("8", [("K4", VNone)])]
              eq_refl) as (_ & row & cols & col & v & Hr & Hc & Hv).
  simpl in Hr. destruct (String.eqb row "8"); [| discriminate].
  injection Hr as <-. simpl in Hc.
  destruct (String.eqb col "K4"); [| discriminate].
  by injection Hc as <-.
Qed.

(** The same happens when a later field overwrites a cell. *)
Example parse_blok_data_overwrite :
  parse_blok_data [("B6R8", VInt 5); ("B6R8K4", VNone)]
  = [("B6", [("8", [("K4", VNone)])])].
Proof. vm_compute. reflexivity. Qed.

(** ** The theorems at concrete lines *)

Lemma absent_NoUrut_is_makanan_witness :
  let k := {| NoUrutKomoditiFK := None; IDART := Some "01";
              slots := [VNone; VInt 3]; Rincian := None; KodeCOICOP := None |} in
  let k' := {| NoUrutKomoditiFK := Some 200; IDART := Some "02";
               slots := [VFloat (Float.of_Z 2)]; Rincian := None;
               KodeCOICOP := None |} in
  NoUrutKomoditiFK k = None
  /\ split_komoditi [k'; k] = ([k], [k'], [])
  /\ (let '(makanan, individu, non_makanan) := split_komoditi [k'; k] in
      (k ∈ makanan <-> k ∈ [k'; k] /\ has_any_value k = true)
      /\ (k ∉ individu) /\ (k ∉ non_makanan)).
Proof.
  intros k k'. split; [reflexivity |]. split; [reflexivity |].
  apply (absent_NoUrut_is_makanan [k'; k] k). reflexivity.
Defined.

(** Five lines: one without any value, one of each range, and the two
    persons of the individual range out of order in the input. *)
Lemma split_komoditi_partition_witness :
  let line n id v := {| NoUrutKomoditiFK := n; IDART := id;
                        slots := [VNone; v]; Rincian := None;
                        KodeCOICOP := None |} in
  let rows := [line (Some 300) None (VInt 3); line (Some 190) (Some "02") (VInt 2);
               line (Some 7) None VNone; line (Some 5) None (VInt 1);
               line (Some 186) (Some "01") (VInt 5)] in
  let makanan := [line (Some 5) None (VInt 1)] in
  let individu := [line (Some 186) (Some "01") (VInt 5);
                   line (Some 190) (Some "02") (VInt 2)] in
  let non_makanan := [line (Some 300) None (VInt 3)] in
  split_komoditi rows = (makanan, individu, non_makanan)
  /\ (exists without,
        rows ≡ₚ (makanan ++ individu ++ non_makanan) ++ without
        /\ Forall with_value (makanan ++ individu ++ non_makanan)
        /\ Forall (fun k => ~ with_value k) without)
  /\ (line (Some 5) None (VInt 1) ∈ makanan
      <-> line (Some 5) None (VInt 1) ∈ rows
          /\ with_value (line (Some 5) None (VInt 1)))
  /\ (~ with_value (line (Some 7) None VNone) ->
      line (Some 7) None VNone ∉ makanan).
Proof.
  intros line rows makanan individu non_makanan.
  pose proof (split_komoditi_partition rows) as H.
  change (split_komoditi rows) with (makanan, individu, non_makanan) in H.
  cbv beta iota in H.
  destruct H as (_ & _ & _ & Hu & Hf & Hn).
  split; [reflexivity |]. split; [exact Hu |]. split.
  - apply (Hf _ 5); [reflexivity | lia].
  - intros Hv. apply (Hn _ Hv).
Defined.

Lemma split_komoditi_order_witness :
  let line n id := {| NoUrutKomoditiFK := n; IDART := id; slots := [VInt 1];
                      Rincian := None; KodeCOICOP := None |} in
  let rows := [line (Some 300) None; line (Some 200) (Some "02");
               line (Some 5) None; line (Some 190) (Some "01");
               line (Some 226) None; line (Some 186) (Some "02");
               line None None; line (Some 225) None;
               line (Some 187) (Some "01")] in
  let makanan := [line (Some 5) None; line None None] in
  let individu := [line (Some 225) None; line (Some 187) (Some "01");
                   line (Some 190) (Some "01"); line (Some 186) (Some "02");
                   line (Some 200) (Some "02")] in
  let non_makanan := [line (Some 300) None; line (Some 226) None] in
  split_komoditi rows = (makanan, individu, non_makanan)
  /\ sublist makanan rows
  /\ sublist non_makanan rows
  /\ (exists lines, sublist lines rows /\ individu ≡ₚ lines)
  /\ StronglySorted composite_le individu.
Proof.
  intros line rows makanan individu non_makanan.
  split; [reflexivity |].
  pose proof (split_komoditi_order rows) as H.
  change (split_komoditi rows) with (makanan, individu, non_makanan) in H.
  exact H.
Defined.

Example split_komoditi_example :
  let line n id v := {| NoUrutKomoditiFK := n; IDART := id; slots := [VNone; v];
                        Rincian := None; KodeCOICOP := None |} in
  split_komoditi
    [line (Some 5) None (VInt 1); line (Some 190) (Some "02") (VInt 2);
     line (Some 300) None (VInt 3); line (Some 187) (Some "02") (VInt 4);
     line (Some 186) (Some "01") (VInt 5); line (Some 7) None VNone;
     line None None (VInt 6); line (Some 225) None (VInt 7)]
  = ([line (Some 5) None (VInt 1); line None None (VInt 6)],
     [line (Some 225) None (VInt 7); line (Some 186) (Some "01") (VInt 5);
      line (Some 187) (Some "02") (VInt 4); line (Some 190) (Some "02") (VInt 2)],
     [line (Some 300) None (VInt 3)]).
Proof. vm_compute. reflexivity. Qed.

Example build_idart_map_example :
  let line id := {| NoUrutKomoditiFK := Some 186; IDART := id; slots := [VInt 1];
                    Rincian := None; KodeCOICOP := None |} in
  let m := build_idart_map
             [line None; line (Some ""); line (Some "01"); line (Some "03");
              line (Some "01"); line (Some "02")] in
  seen_idart [line None; line (Some ""); line (Some "01"); line (Some "03");
              line (Some "01"); line (Some "02")] = ["01"; "03"; "02"]
  /\ m !! "01" = Some 1 /\ m !! "03" = Some 2 /\ m !! "02" = Some 3
  /\ m !! "" = None
  /\ ART m (line None) = inr "-" /\ ART m (line (Some "03")) = inl 2.
Proof. repeat split; vm_compute; reflexivity. Qed.

(** * Further properties *)

(** ** Match objects *)

Module ReFacts.
Import Re.

Lemma run_length_firstn c s n :
  (n <= run_length c s)%nat ->
  Forall (fun a => accepts c a = true) (firstn n s) /\ length (firstn n s) = n.
Proof.
  revert n. induction s as [| a s IH]; intros n Hn; simpl in Hn.
  - assert (n = O) as -> by lia. by split.
  - destruct n as [| n]; [by split |]. simpl.
    destruct (accepts c a) eqn:E; [| lia].
    destruct (IH n ltac:(lia)) as [H1 H2]. split; [by constructor | by rewrite H2].
Qed.

Lemma longest_first_Some k g s least extra ps' :
  longest_first k g s least extra = Some ps' ->
  exists n ps, (least <= n <= least + extra)%nat
    /\ k (skipn n s) = Some ps /\ ps' = (g, firstn n s) :: ps.
Proof.
  induction extra as [| extra IH]; simpl.
  - destruct (k (skipn (least + 0) s)) as [ps |] eqn:E; [| done].
    intros [= <-]. exists (least + 0)%nat, ps. split_and!; try done; lia.
  - destruct (k (skipn (least + S extra) s)) as [ps |] eqn:E.
    + intros [= <-]. exists (least + S extra)%nat, ps. split_and!; try done; lia.
    + intros H. destruct (IH H) as (n & ps & Hn & Hk & ->).
      exists n, ps. split_and!; try done; lia.
Qed.

(** A match is made of one piece for each consuming token, and the
    pieces together are the start of the string. *)
Lemma run_sound p s ps :
  run p s = Some ps ->
  Forall2 piece_ok (chr_toks p) ps /\ concat (map snd ps) `prefix_of` s.
Proof.
  revert s ps. induction p as [| t p IH]; intros s ps; cbn [run].
  - intros [= <-]. split; [constructor | by exists s].
  - destruct t as [c r g |]; unfold chr_toks; cbn [List.filter];
      fold (chr_toks p).
    + intros H.
      assert (Hlf : exists least extra,
        (least + extra <= run_length c s)%nat
        /\ match r with
           | Once => least = 1%nat /\ extra = O
           | Plus => least = 1%nat
           | Optional => least = O /\ (extra <= 1)%nat
           end
        /\ longest_first (run p) g s least extra = Some ps).
      { destruct r.
        - destruct (1 <=? run_length c s)%nat eqn:E; [| done].
          apply Nat.leb_le in E. exists 1%nat, O. split_and!; try done; lia.
        - destruct (1 <=? run_length c s)%nat eqn:E; [| done].
          apply Nat.leb_le in E. exists 1%nat, (run_length c s - 1)%nat.
          split_and!; try done; lia.
        - exists O, (Nat.min (run_length c s) 1). split_and!; try done; lia. }
      destruct Hlf as (least & extra & Hle & Hr & Hlf).
      apply longest_first_Some in Hlf as (n & ps0 & Hn & Hk & ->).
      destruct (IH _ _ Hk) as [HF Hpre].
      destruct (run_length_firstn c s n ltac:(lia)) as [Hacc Hlen].
      split.
      * constructor; [| exact HF]. simpl. split_and!; [done.. |].
        rewrite Hlen. destruct r; lia.
      * simpl. destruct Hpre as [rest Hrest].
        exists rest. rewrite <- app_assoc, <- Hrest. by rewrite firstn_skipn.
    + destruct (at_end s); [| done]. apply IH.
Qed.

(** [c+] at the end of a pattern matches as soon as one character is
    there. *)
Lemma run_Plus_last c g s :
  (1 <= run_length c s)%nat ->
  run [Chr c Plus g] s = Some [(g, firstn (run_length c s) s)].
Proof.
  intros H. cbn [run]. apply Nat.leb_le in H as H'. rewrite H'.
  replace (run_length c s) with (1 + (run_length c s - 1))%nat at 2 by lia.
  by destruct (run_length c s - 1)%nat.
Qed.

End ReFacts.

(** ** The classifier *)

Lemma in_range_A_G a :
  Chars.in_range "A" "G" a = true ->
  In a ["A"; "B"; "C"; "D"; "E"; "F"; "G"]%char.
Proof.
  destruct a as [[] [] [] [] [] [] [] []]; vm_compute; intros H;
    first [discriminate H | tauto].
Qed.

Lemma in_range_C_G a :
  Chars.in_range "C" "G" a = true -> In a ["C"; "D"; "E"; "F"; "G"]%char.
Proof.
  destruct a as [[] [] [] [] [] [] [] []]; vm_compute; intros H;
    first [discriminate H | tauto].
Qed.

(** A pattern of classes that are matched once each matches a string
    that starts with one character of each class. *)
Lemma run_once cs s ps :
  Re.run (map (fun c => Re.Chr c Re.Once O) cs) s = Some ps ->
  exists w rest, s = w ++ rest /\ Forall2 (fun c a => Re.accepts c a = true) cs w.
Proof.
  revert s ps. induction cs as [| c cs IH]; intros s ps; cbn [map Re.run].
  - intros _. exists [], s. split; [done | constructor].
  - destruct (1 <=? Re.run_length c s)%nat eqn:E; [| done].
    apply Nat.leb_le in E. intros H.
    apply ReFacts.longest_first_Some in H as (n & ps0 & Hn & Hk & _).
    assert (n = 1%nat) as -> by lia.
    destruct s as [| a s]; [simpl in E; lia |]. simpl in E.
    change (drop 1 (a :: s)) with s in Hk.
    destruct (Re.accepts c a) eqn:Ea; [| lia].
    destruct (IH _ _ Hk) as (w & rest & -> & HF).
    exists (a :: w), rest. split; [done | by constructor].
Qed.

Lemma matches_once pattern cs key :
  Re.compile pattern = Some (map (fun c => Re.Chr c Re.Once O) cs) ->
  matches pattern key = true ->
  exists w rest, key = string_of_list_ascii (w ++ rest)
                 /\ Forall2 (fun c a => Re.accepts c a = true) cs w.
Proof.
  unfold matches, Re.match_. intros -> H.
  apply bool_decide_eq_true_1 in H as [ps H].
  apply run_once in H as (w & rest & Hk & HF).
  exists w, rest. split; [| done].
  rewrite <- Hk. symmetry. apply string_of_list_ascii_of_string.
Qed.

Lemma accepts_Lit a b : Re.accepts (Re.Lit b) a = true -> a = b.
Proof. simpl. apply Ascii.eqb_eq. Qed.

Lemma accepts_OneOf a cs : Re.accepts (Re.OneOf cs) a = true -> In a cs.
Proof.
  simpl. rewrite existsb_exists. intros (b & Hb & E).
  apply Ascii.eqb_eq in E. by subst.
Qed.

Lemma suffix_from_string_of_list w rest :
  suffix_from (length w) (string_of_list_ascii (w ++ rest))
  = string_of_list_ascii rest.
Proof.
  unfold suffix_from.
  by rewrite list_ascii_of_string_of_list_ascii, drop_app_length.
Qed.

Lemma prefix_string_of_list w rest :
  prefix (length w) (string_of_list_ascii (w ++ rest)) = string_of_list_ascii w.
Proof.
  unfold prefix.
  by rewrite list_ascii_of_string_of_list_ascii, take_app_length.
Qed.

Lemma string_of_list_app w rest :
  string_of_list_ascii (w ++ rest)
  = string_of_list_ascii w +:+ string_of_list_ascii rest.
Proof. induction w as [| a w IH]; simpl; [done | by rewrite IH]. Qed.

Lemma matches_B43 key :
  matches "^B43[123]" key = true ->
  exists a rest, In a ["1"; "2"; "3"]%char
    /\ key = string_of_list_ascii (["B"; "4"; "3"; a]%char ++ rest).
Proof.
  intros H.
  destruct (matches_once "^B43[123]"
              [Re.Lit "B"; Re.Lit "4"; Re.Lit "3"; Re.OneOf ["1"; "2"; "3"]%char]
              key eq_refl H) as (w & rest & -> & HF).
  apply Forall2_cons_inv_l in HF as (a1 & w1 & ->%accepts_Lit & HF & ->).
  apply Forall2_cons_inv_l in HF as (a2 & w2 & ->%accepts_Lit & HF & ->).
  apply Forall2_cons_inv_l in HF as (a3 & w3 & ->%accepts_Lit & HF & ->).
  apply Forall2_cons_inv_l in HF as (a4 & w4 & Ha%accepts_OneOf & HF & ->).
  apply Forall2_nil_inv_l in HF as ->. by exists a4, rest.
Qed.

Lemma matches_B5 (x : ascii) key :
  matches (String "^" (String "B" (String "5" (String "[" (String "A"
    (String "-" (String "G" (String "]" (String x "")))))))))  key = true ->
  x = "R"%char \/ x = "K"%char ->
  exists a rest, In a ["A"; "B"; "C"; "D"; "E"; "F"; "G"]%char
    /\ key = string_of_list_ascii (["B"; "5"; a]%char ++ (x :: rest)).
Proof.
  intros H Hx.
  assert (Hc : Re.compile (String "^" (String "B" (String "5" (String "["
             (String "A" (String "-" (String "G" (String "]" (String x "")))))))))
           = Some (map (fun c => Re.Chr c Re.Once O)
                       [Re.Lit "B"; Re.Lit "5"; Re.Range "A" "G"; Re.Lit x]%char))
    by (destruct Hx as [-> | ->]; reflexivity).
  destruct (matches_once _ _ key Hc H) as (w & rest & -> & HF).
  apply Forall2_cons_inv_l in HF as (a1 & w1 & ->%accepts_Lit & HF & ->).
  apply Forall2_cons_inv_l in HF as (a2 & w2 & ->%accepts_Lit & HF & ->).
  apply Forall2_cons_inv_l in HF as (a3 & w3 & Ha%in_range_A_G & HF & ->).
  apply Forall2_cons_inv_l in HF as (a4 & w4 & ->%accepts_Lit & HF & ->).
  apply Forall2_nil_inv_l in HF as ->. by exists a3, rest.
Qed.

Lemma matches_B67 (d : ascii) key :
  matches (String "^" (String "B" (String d (String "R" "")))) key = true ->
  d = "6"%char \/ d = "7"%char ->
  exists rest, key = string_of_list_ascii (["B"; d]%char ++ ("R"%char :: rest)).
Proof.
  intros H Hd.
  assert (Hc : Re.compile (String "^" (String "B" (String d (String "R" ""))))
           = Some (map (fun c => Re.Chr c Re.Once O)
                       [Re.Lit "B"; Re.Lit d; Re.Lit "R"]%char))
    by (destruct Hd as [-> | ->]; reflexivity).
  destruct (matches_once _ _ key Hc H) as (w & rest & -> & HF).
  apply Forall2_cons_inv_l in HF as (a1 & w1 & ->%accepts_Lit & HF & ->).
  apply Forall2_cons_inv_l in HF as (a2 & w2 & ->%accepts_Lit & HF & ->).
  apply Forall2_cons_inv_l in HF as (a3 & w3 & ->%accepts_Lit & HF & ->).
  apply Forall2_nil_inv_l in HF as ->. by exists rest.
Qed.

(** X1. A key that is classified is classified to one of the twelve
    sections that have a title, and the section name is the start of the
    key: stripping as many characters as the name is long leaves the rest
    of the key. *)
Theorem classify_blok_key_sound (key blok_name : string) :
  classify_blok_key key = Some blok_name ->
  is_Some (ODict.get blok_name BLOK_TITLES)
  /\ exists rest, key = blok_name +:+ rest
                  /\ suffix_from (String.length blok_name) key = rest.
Proof.
  unfold classify_blok_key.
  destruct (matches "^B43[123]" key) eqn:E1.
  { apply matches_B43 in E1 as (a & rest & Ha & ->).
    pose proof (prefix_string_of_list ["B"; "4"; "3"; a]%char rest) as Hp.
    pose proof (suffix_from_string_of_list ["B"; "4"; "3"; a]%char rest) as Hs.
    pose proof (string_of_list_app ["B"; "4"; "3"; a]%char rest) as Hk.
    cbn [length] in Hp. rewrite Hp. intros [= <-].
    simpl in Ha. destruct Ha as [<- | [<- | [<- | []]]];
      (split; [by eexists | exists (string_of_list_ascii rest); by split]). }
  destruct (matches "^B5[A-G]R" key) eqn:E2.
  { apply (matches_B5 "R") in E2 as (a & rest & Ha & ->); [| by left].
    pose proof (prefix_string_of_list ["B"; "5"; a]%char ("R"%char :: rest)) as Hp.
    pose proof (suffix_from_string_of_list ["B"; "5"; a]%char ("R"%char :: rest)) as Hs.
    pose proof (string_of_list_app ["B"; "5"; a]%char ("R"%char :: rest)) as Hk.
    cbn [length] in Hp. rewrite Hp. intros [= <-].
    simpl in Ha. destruct Ha as [<- | [<- | [<- | [<- | [<- | [<- | [<- | []]]]]]]];
      (split; [by eexists
              | exists (string_of_list_ascii ("R"%char :: rest)); by split]). }
  destruct (matches "^B5[A-G]K" key) eqn:E3.
  { apply (matches_B5 "K") in E3 as (a & rest & Ha & ->); [| by right].
    pose proof (prefix_string_of_list ["B"; "5"; a]%char ("K"%char :: rest)) as Hp.
    pose proof (suffix_from_string_of_list ["B"; "5"; a]%char ("K"%char :: rest)) as Hs.
    pose proof (string_of_list_app ["B"; "5"; a]%char ("K"%char :: rest)) as Hk.
    cbn [length] in Hp. rewrite Hp. intros [= <-].
    simpl in Ha. destruct Ha as [<- | [<- | [<- | [<- | [<- | [<- | [<- | []]]]]]]];
      (split; [by eexists
              | exists (string_of_list_ascii ("K"%char :: rest)); by split]). }
  destruct (matches "^B6R" key) eqn:E4.
  { apply (matches_B67 "6") in E4 as (rest & ->); [| by left].
    intros [= <-].
    pose proof (suffix_from_string_of_list ["B"; "6"]%char ("R"%char :: rest)) as Hs.
    pose proof (string_of_list_app ["B"; "6"]%char ("R"%char :: rest)) as Hk.
    split; [by eexists
           | exists (string_of_list_ascii ("R"%char :: rest)); by split]. }
  destruct (matches "^B7R" key) eqn:E5; [| done].
  apply (matches_B67 "7") in E5 as (rest & ->); [| by right].
  intros [= <-].
  pose proof (suffix_from_string_of_list ["B"; "7"]%char ("R"%char :: rest)) as Hs.
  pose proof (string_of_list_app ["B"; "7"]%char ("R"%char :: rest)) as Hk.
  split; [by eexists | exists (string_of_list_ascii ("R"%char :: rest)); by split].
Qed.

Lemma classify_blok_key_sound_witness :
  is_Some (ODict.get "B5E" BLOK_TITLES)
  /\ exists rest, "B5ER11K2" = "B5E" +:+ rest
                  /\ suffix_from (String.length "B5E") "B5ER11K2" = rest.
Proof. apply (classify_blok_key_sound "B5ER11K2" "B5E"). reflexivity. Defined.

(** ** Addresses *)

Lemma group_cons (g g' : nat) w (m : Re.pieces) :
  Re.group ((g', w) :: m) g
  = if Nat.eqb g' g then string_of_list_ascii w +:+ Re.group m g
    else Re.group m g.
Proof.
  unfold Re.group. cbn [List.filter fst]. destruct (Nat.eqb g' g); [| done].
  cbn [map concat snd]. apply string_of_list_app.
Qed.

Lemma string_app_empty_r (s : string) : s +:+ "" = s.
Proof.
  induction s as [| a s IH]; [done |].
  change (String a (s +:+ "") = String a s). by rewrite IH.
Qed.

Lemma piece_ok_Plus c g piece :
  piece_ok (Re.Chr c Re.Plus g) piece ->
  piece.1 = g /\ piece.2 <> [] /\ Forall (fun a => Re.accepts c a = true) piece.2.
Proof.
  intros (Hg & Hacc & Hlen). split_and!; [done | | done].
  intros E. rewrite E in Hlen. simpl in Hlen. lia.
Qed.

(** The row and the column of an address are a row key and a column
    key. *)
Lemma address_keys sfx row col :
  address sfx = Some (row, col) -> row_key row /\ column_key col.
Proof.
  unfold address.
  destruct (Re.match_ "R(\d+[A-Z]?)K(\d+)" sfx) as [m |] eqn:E1.
  { intros [= <- <-]. unfold Re.match_ in E1.
    change (Re.compile "R(\d+[A-Z]?)K(\d+)")
      with (Some [Re.Chr (Re.Lit "R") Re.Once 0; Re.Chr Re.Digit Re.Plus 1;
                  Re.Chr (Re.Range "A" "Z") Re.Optional 1;
                  Re.Chr (Re.Lit "K") Re.Once 0; Re.Chr Re.Digit Re.Plus 2]) in E1.
    apply ReFacts.run_sound in E1 as [HF _]. cbn in HF.
    apply Forall2_cons_inv_l in HF as ([g1 w1] & m1 & (Hg1 & _) & HF & ->).
    apply Forall2_cons_inv_l in HF as ([g2 w2] & m2 & H2%piece_ok_Plus & HF & ->).
    apply Forall2_cons_inv_l in HF as ([g3 w3] & m3 & (Hg3 & Hu & Hl) & HF & ->).
    apply Forall2_cons_inv_l in HF as ([g4 w4] & m4 & (Hg4 & _) & HF & ->).
    apply Forall2_cons_inv_l in HF as ([g5 w5] & m5 & H5%piece_ok_Plus & HF & ->).
    apply Forall2_nil_inv_l in HF as ->.
    destruct H2 as (Hg2 & Hn2 & Hd2), H5 as (Hg5 & Hn5 & Hd5).
    simpl in Hg1, Hg2, Hg3, Hg4, Hg5, Hn2, Hd2, Hn5, Hd5, Hu, Hl. subst.
    rewrite !group_cons. cbn [Nat.eqb].
    unfold Re.group. cbn [List.filter map concat string_of_list_ascii].
    rewrite !string_app_empty_r. split.
    - exists w2, w3. split_and!; try done.
      by rewrite string_of_list_app.
    - exists w5. by split. }
  destruct (Re.match_ "R(\d+)$" sfx) as [m |] eqn:E2.
  { intros [= <- <-]. unfold Re.match_ in E2.
    change (Re.compile "R(\d+)$")
      with (Some [Re.Chr (Re.Lit "R") Re.Once 0; Re.Chr Re.Digit Re.Plus 1;
                  Re.Eos]) in E2.
    apply ReFacts.run_sound in E2 as [HF _]. cbn in HF.
    apply Forall2_cons_inv_l in HF as ([g1 w1] & m1 & (Hg1 & _) & HF & ->).
    apply Forall2_cons_inv_l in HF as ([g2 w2] & m2 & H2%piece_ok_Plus & HF & ->).
    apply Forall2_nil_inv_l in HF as ->.
    destruct H2 as (Hg2 & Hn2 & Hd2). simpl in Hg1, Hg2, Hn2, Hd2. subst.
    rewrite !group_cons. cbn [Nat.eqb].
    unfold Re.group. cbn [List.filter map concat string_of_list_ascii].
    rewrite !string_app_empty_r. split.
    - exists w2, []. split_and!; try done; [simpl; lia |].
      by rewrite app_nil_r.
    - exists ["4"%char]. split; [| done]. split; [done | by repeat constructor]. }
  destruct (Re.match_ "K(\d+)" sfx) as [m |] eqn:E3; [| done].
  intros [= <- <-]. unfold Re.match_ in E3.
  change (Re.compile "K(\d+)")
    with (Some [Re.Chr (Re.Lit "K") Re.Once 0; Re.Chr Re.Digit Re.Plus 1]) in E3.
  apply ReFacts.run_sound in E3 as [HF _]. cbn in HF.
  apply Forall2_cons_inv_l in HF as ([g1 w1] & m1 & (Hg1 & _) & HF & ->).
  apply Forall2_cons_inv_l in HF as ([g2 w2] & m2 & H2%piece_ok_Plus & HF & ->).
  apply Forall2_nil_inv_l in HF as ->.
  destruct H2 as (Hg2 & Hn2 & Hd2). simpl in Hg1, Hg2, Hn2, Hd2. subst.
  rewrite !group_cons. cbn [Nat.eqb].
  unfold Re.group. cbn [List.filter map concat string_of_list_ascii].
  rewrite !string_app_empty_r. split.
  - exists ["1"%char], []. split_and!; try done; [| simpl; lia].
    split; [done | by repeat constructor].
  - exists w2. by split.
Qed.

(** ** The cells of the tables *)

(** A table of the result is [parse_rows] of the raw fields of its
    section. *)
Lemma parse_blok_data_rows rekap blok_name rows :
  (blok_name, rows) ∈ parse_blok_data rekap ->
  exists data, (blok_name, data) ∈ collect_blok_raw rekap
               /\ any_not_None data = true
               /\ rows = parse_rows blok_name data.
Proof.
  unfold parse_blok_data.
  match goal with |- context [fold_left ?f] => set (step := f) end.
  set (raw := collect_blok_raw rekap).
  assert (H : forall l acc,
    (forall x, x ∈ l -> x ∈ raw) ->
    (forall b t, (b, t) ∈ acc ->
       exists d, (b, d) ∈ raw /\ any_not_None d = true /\ t = parse_rows b d) ->
    forall b t, (b, t) ∈ fold_left step l acc ->
       exists d, (b, d) ∈ raw /\ any_not_None d = true /\ t = parse_rows b d).
  { induction l as [| [b0 d0] r IH]; intros acc Hl Hacc; simpl; [exact Hacc |].
    apply IH; [intros x Hx; apply Hl; by right |].
    intros b t Hb.
    destruct (any_not_None d0) eqn:E; simpl in Hb; [| by apply Hacc].
    destruct (parse_rows b0 d0) as [| row rows'] eqn:Er; [by apply Hacc |].
    apply ODictFacts.elem_of_set in Hb as [[-> ->] | Hb]; [| by apply Hacc].
    exists d0. split_and!; [apply Hl; by left | done | done]. }
  apply H; [done | by intros ?? ?%elem_of_nil].
Qed.

(** Every cell of [parse_rows] is the value of a field with that
    address. *)
Lemma parse_rows_cells blok_name data row cols col v :
  (row, cols) ∈ parse_rows blok_name data -> (col, v) ∈ cols ->
  exists key, (key, v) ∈ data
    /\ address (suffix_from (String.length blok_name) key) = Some (row, col).
Proof.
  unfold parse_rows.
  match goal with |- context [fold_left ?f] => set (step := f) end.
  assert (H : forall l done_ acc,
    (forall r cs c x, (r, cs) ∈ acc -> (c, x) ∈ cs ->
       exists key, (key, x) ∈ done_
         /\ address (suffix_from (String.length blok_name) key) = Some (r, c)) ->
    forall r cs c x, (r, cs) ∈ fold_left step l acc -> (c, x) ∈ cs ->
       exists key, (key, x) ∈ done_ ++ l
         /\ address (suffix_from (String.length blok_name) key) = Some (r, c)).
  { induction l as [| [k0 v0] l IH]; intros done_ acc Hacc r cs c x; simpl.
    - rewrite app_nil_r. apply Hacc.
    - replace (done_ ++ (k0, v0) :: l) with ((done_ ++ [(k0, v0)]) ++ l)
        by (by rewrite <- app_assoc).
      apply IH. clear r cs c x. intros r cs c x Hr Hc.
      assert (Hold : forall r cs c x, (r, cs) ∈ acc -> (c, x) ∈ cs ->
        exists key, (key, x) ∈ done_ ++ [(k0, v0)]
          /\ address (suffix_from (String.length blok_name) key) = Some (r, c)).
      { intros r' cs' c' x' H1 H2. destruct (Hacc _ _ _ _ H1 H2) as (key & Hk & Ha).
        exists key. split; [| done]. apply elem_of_app. by left. }
      destruct (address (suffix_from (String.length blok_name) k0))
        as [[r0 c0] |] eqn:E; [| by eapply Hold].
      destruct (ODictFacts.elem_of_set2 _ _ _ _ _ _ _ _ Hr Hc)
        as [(-> & -> & ->) | (t0 & Ht0 & Hc0)]; [| by eapply Hold].
      exists k0. split; [| done]. apply elem_of_app. right. by left. }
  intros Hr Hc.
  apply (H data [] [] ltac:(by intros ???? ?%elem_of_nil) _ _ _ _ Hr Hc).
Qed.

(** X2. Every cell of every table is the value of a field of the record:
    a field that is classified to the section of the table and whose key,
    with the section name stripped, has the row and the column of the
    cell as its address. Row keys are a number with at most one capital
    letter, column keys are [K] and a number. *)
Theorem parse_blok_data_cells (rekap : ODict.t value)
    (blok_name row col : string) (rows : ODict.t (ODict.t value))
    (cols : ODict.t value) (v : value) :
  ODict.get blok_name (parse_blok_data rekap) = Some rows ->
  ODict.get row rows = Some cols ->
  ODict.get col cols = Some v ->
  (exists key, field_of rekap blok_name key v
     /\ address (suffix_from (String.length blok_name) key) = Some (row, col))
  /\ row_key row /\ column_key col.
Proof.
  intros Hb Hr Hc.
  apply ODictFacts.get_elem_of in Hb, Hr, Hc.
  apply parse_blok_data_rows in Hb as (data & Hd & _ & ->).
  destruct (parse_rows_cells _ _ _ _ _ _ Hr Hc) as (key & Hk & Ha).
  split; [| by eapply address_keys].
  exists key. split; [| done]. by eapply collect_blok_raw_fields.
Qed.

Lemma parse_blok_data_cells_witness :
  (exists key,
     field_of [("Kab", VStr "7102"); ("B5ER11K2", VInt 5)] "B5E" key (VInt 5)
     /\ address (suffix_from (String.length "B5E") key) = Some ("11", "K2"))
  /\ row_key "11" /\ column_key "K2".
Proof.
  apply (parse_blok_data_cells [("Kab", VStr "7102"); ("B5ER11K2", VInt 5)]
           "B5E" "11" "K2" [("11", [("K2", VInt 5)])] [("K2", VInt 5)] (VInt 5));
    reflexivity.
Defined.

(** ** Sort keys of rows and columns *)

Lemma run_length_digits ds rest :
  Forall (fun a => Chars.is_digit a = true) ds ->
  (length ds <= Re.run_length Re.Digit (ds ++ rest))%nat.
Proof.
  induction 1 as [| a ds Ha _ IH]; simpl; [lia |]. rewrite Ha. lia.
Qed.

Lemma run_length_all ds :
  Forall (fun a => Chars.is_digit a = true) ds ->
  Re.run_length Re.Digit ds = length ds.
Proof. induction 1 as [| a ds Ha _ IH]; simpl; [done |]. by rewrite Ha, IH. Qed.

(** The number in a column key is found by [re.search]. *)
Lemma column_number_digits ds :
  digit_run ds ->
  column_number (String "K" (string_of_list_ascii ds)) = Some (Chars.Z_of_digits ds).
Proof.
  intros [Hne Hd]. unfold column_number, re_search.
  change (Re.compile "\d+") with (Some [Re.Chr Re.Digit Re.Plus 0]).
  cbn [list_ascii_of_string]. rewrite list_ascii_of_string_of_list_ascii.
  cbn [search_from]. cbn [Re.run]. cbn [Re.run_length Re.accepts].
  change (Chars.is_digit "K") with false. cbn [Nat.leb].
  destruct ds as [| d ds]; [done |].
  cbn [search_from]. rewrite ReFacts.run_Plus_last.
  - rewrite run_length_all by done. rewrite firstn_all.
    unfold whole, Chars.int_of_digits. cbn [map snd concat].
    by rewrite app_nil_r, list_ascii_of_string_of_list_ascii.
  - rewrite run_length_all by done. simpl. lia.
Qed.

(** The number at the start of a row key is found by [re.match]. *)
Lemma row_number_digits ds letter :
  digit_run ds ->
  is_Some (Re.match_ "(\d+)" (string_of_list_ascii (ds ++ letter))).
Proof.
  intros [Hne Hd]. unfold Re.match_.
  change (Re.compile "(\d+)") with (Some [Re.Chr Re.Digit Re.Plus 1]).
  rewrite list_ascii_of_string_of_list_ascii, ReFacts.run_Plus_last; [by eexists |].
  pose proof (run_length_digits ds letter Hd).
  destruct ds; [done | simpl in *; lia].
Qed.

(** X3. On the tables of [parse_blok_data] the sort keys are always
    there: every row key starts with a number, so [sort_rows] never uses
    its default 0, and the number of every column key is found, so the
    column sort of [render_blok_rekap_table] never meets a key without
    one. *)
Theorem table_keys_have_numbers (rekap : ODict.t value)
    (blok_name row col : string) (rows : ODict.t (ODict.t value))
    (cols : ODict.t value) (v : value) :
  ODict.get blok_name (parse_blok_data rekap) = Some rows ->
  ODict.get row rows = Some cols ->
  ODict.get col cols = Some v ->
  is_Some (Re.match_ "(\d+)" row) /\ is_Some (column_number col).
Proof.
  intros Hb Hr Hc.
  apply ODictFacts.get_elem_of in Hb, Hr, Hc.
  apply parse_blok_data_rows in Hb as (data & Hd & _ & ->).
  destruct (parse_rows_cells _ _ _ _ _ _ Hr Hc) as (key & Hk & Ha).
  apply address_keys in Ha as [(ds & letter & Hds & _ & _ & ->) (cs & Hcs & ->)].
  split; [by apply row_number_digits |].
  rewrite column_number_digits by done. by eexists.
Qed.

Lemma table_keys_have_numbers_witness :
  is_Some (Re.match_ "(\d+)" "12A") /\ is_Some (column_number "K07").
Proof.
  apply (table_keys_have_numbers [("B432R12AK07", VInt 1)] "B432" "12A" "K07"
           [("12A", [("K07", VInt 1)])] [("K07", VInt 1)] (VInt 1)); reflexivity.
Defined.

(** ** Which tables the page shows *)

Lemma classify_blok_key_names key blok_name :
  classify_blok_key key = Some blok_name ->
  In blok_name ["B431"; "B432"; "B433"; "B5A"; "B5B"; "B5C"; "B5D"; "B5E";
                "B5F"; "B5G"; "B6"; "B7"].
Proof.
  unfold classify_blok_key.
  destruct (matches "^B43[123]" key) eqn:E1.
  { apply matches_B43 in E1 as (a & rest & Ha & ->).
    pose proof (prefix_string_of_list ["B"; "4"; "3"; a]%char rest) as Hp.
    cbn [length] in Hp. rewrite Hp. intros [= <-].
    simpl in Ha. destruct Ha as [<- | [<- | [<- | []]]]; simpl; tauto. }
  destruct (matches "^B5[A-G]R" key) eqn:E2.
  { apply (matches_B5 "R") in E2 as (a & rest & Ha & ->); [| by left].
    pose proof (prefix_string_of_list ["B"; "5"; a]%char ("R"%char :: rest)) as Hp.
    cbn [length] in Hp. rewrite Hp. intros [= <-].
    simpl in Ha. destruct Ha as [<- | [<- | [<- | [<- | [<- | [<- | [<- | []]]]]]]];
      simpl; tauto. }
  destruct (matches "^B5[A-G]K" key) eqn:E3.
  { apply (matches_B5 "K") in E3 as (a & rest & Ha & ->); [| by right].
    pose proof (prefix_string_of_list ["B"; "5"; a]%char ("K"%char :: rest)) as Hp.
    cbn [length] in Hp. rewrite Hp. intros [= <-].
    simpl in Ha. destruct Ha as [<- | [<- | [<- | [<- | [<- | [<- | [<- | []]]]]]]];
      simpl; tauto. }
  destruct (matches "^B6R" key) eqn:E4; [intros [= <-]; simpl; tauto |].
  destruct (matches "^B7R" key) eqn:E5; [intros [= <-]; simpl; tauto | done].
Qed.

Lemma parse_blok_data_key_names rekap blok_name :
  blok_name ∈ ODict.keys (parse_blok_data rekap) ->
  In blok_name ["B431"; "B432"; "B433"; "B5A"; "B5B"; "B5C"; "B5D"; "B5E";
                "B5F"; "B5G"; "B6"; "B7"].
Proof.
  unfold ODict.keys. intros H. apply list_elem_of_fmap in H as ([b rows] & -> & H).
  apply parse_blok_data_tables in H as (_ & data & Hd & Hany).
  apply any_not_None_elem_of in Hany as (key & v & Hk & _).
  destruct (collect_blok_raw_fields _ _ _ _ _ Hd Hk) as [_ Hc].
  by eapply classify_blok_key_names.
Qed.

(** X4. Every table that [parse_blok_data] builds has a title, and the
    page shows it in one place at most: the tables of B431, B432, B433 in
    the group of blok IV, those of B5C to B5G in the group of blok V, those
    of B6 and B7 in the last group; the tables of B5A and B5B are built and
    shown in no group. *)
Theorem page_groups (rekap : ODict.t value) (bk : string) :
  let blok_tables := parse_blok_data rekap in
  bk ∈ ODict.keys blok_tables ->
  is_Some (ODict.get bk BLOK_TITLES)
  /\ (bk ∈ blok4_keys blok_tables <-> bk ∈ ["B431"; "B432"; "B433"])
  /\ (bk ∈ blok5_keys blok_tables <-> bk ∈ ["B5C"; "B5D"; "B5E"; "B5F"; "B5G"])
  /\ (bk ∈ blok67_keys blok_tables <-> bk ∈ ["B6"; "B7"])
  /\ (bk ∈ ["B5A"; "B5B"] <->
      bk ∉ blok4_keys blok_tables ++ blok5_keys blok_tables
           ++ blok67_keys blok_tables).
Proof.
  intros blok_tables Hin.
  pose proof (parse_blok_data_key_names _ _ Hin) as Hn.
  unfold blok4_keys, blok5_keys, blok67_keys.
  rewrite !elem_of_app, !elem_of_List_filter, !list_elem_of_In.
  rewrite list_elem_of_In in Hin.
  simpl in Hn.
  repeat (destruct Hn as [<- | Hn];
          [set (P := In _ (ODict.keys blok_tables)) in *; clearbody P;
           split; [by eexists |]; vm_compute; intuition discriminate |]).
  done.
Qed.

Lemma page_groups_witness :
  let blok_tables := parse_blok_data [("B5AK5J", VInt 1); ("B6R8", VInt 2)] in
  is_Some (ODict.get "B5A" BLOK_TITLES)
  /\ ("B5A" ∈ blok4_keys blok_tables <-> "B5A" ∈ ["B431"; "B432"; "B433"])
  /\ ("B5A" ∈ blok5_keys blok_tables <->
      "B5A" ∈ ["B5C"; "B5D"; "B5E"; "B5F"; "B5G"])
  /\ ("B5A" ∈ blok67_keys blok_tables <-> "B5A" ∈ ["B6"; "B7"])
  /\ ("B5A" ∈ ["B5A"; "B5B"] <->
      "B5A" ∉ blok4_keys blok_tables ++ blok5_keys blok_tables
              ++ blok67_keys blok_tables).
Proof.
  apply (page_groups [("B5AK5J", VInt 1); ("B6R8", VInt 2)] "B5A").
  apply (bool_decide_unpack _). vm_compute. exact I.
Defined.

(** ** Tables are dictionaries *)

Lemma keys_set {V} k (v : V) d :
  ODict.keys (ODict.set k v d)
  = if bool_decide (k ∈ ODict.keys d) then ODict.keys d else ODict.keys d ++ [k].
Proof.
  unfold ODict.keys. induction d as [| [k' v'] r IH]; simpl; [done |].
  destruct (String.eqb_spec k k') as [-> | Hne]; simpl.
  - rewrite bool_decide_eq_true_2; [done | by left].
  - rewrite IH. destruct (bool_decide (k ∈ map fst r)) eqn:E.
    + apply bool_decide_eq_true_1 in E.
      rewrite bool_decide_eq_true_2; [done | by right].
    + apply bool_decide_eq_false_1 in E.
      rewrite bool_decide_eq_false_2; [done |].
      rewrite elem_of_cons. tauto.
Qed.

Lemma NoDup_keys_set {V} k (v : V) d :
  NoDup (ODict.keys d) -> NoDup (ODict.keys (ODict.set k v d)).
Proof.
  intros H. rewrite keys_set. destruct (bool_decide (k ∈ ODict.keys d)) eqn:E;
    [done |].
  apply bool_decide_eq_false_1 in E. apply NoDup_app. split_and!; [done | | ].
  - intros x Hx Hx'. apply list_elem_of_singleton in Hx'. by subst.
  - apply NoDup_singleton.
Qed.

(** A new key goes last. *)
Lemma set_fresh {V} k (v : V) d :
  k ∉ ODict.keys d -> ODict.set k v d = d ++ [(k, v)].
Proof.
  unfold ODict.keys. induction d as [| [k' v'] r IH]; simpl; [done |].
  rewrite not_elem_of_cons. intros [Hne Hr].
  apply String.eqb_neq in Hne. rewrite Hne. by rewrite IH.
Qed.

Lemma get_None_keys {V} k (d : ODict.t V) :
  ODict.get k d = None <-> k ∉ ODict.keys d.
Proof.
  unfold ODict.keys. induction d as [| [k' v'] r IH]; simpl.
  - split; [intros _; apply not_elem_of_nil | done].
  - rewrite not_elem_of_cons. destruct (String.eqb_spec k k') as [-> | Hne].
    + split; [done | tauto].
    + rewrite IH. tauto.
Qed.

(** Under distinct keys, membership and [get] say the same. *)
Lemma elem_of_get {V} k (v : V) d :
  NoDup (ODict.keys d) -> (k, v) ∈ d -> ODict.get k d = Some v.
Proof.
  unfold ODict.keys. induction d as [| [k' v'] r IH]; simpl.
  - by intros _ ?%elem_of_nil.
  - rewrite NoDup_cons, elem_of_cons. intros [Hk Hr] [[= -> ->] | Hin].
    + by rewrite String.eqb_refl.
    + destruct (String.eqb_spec k k') as [-> | Hne]; [| by apply IH].
      exfalso. apply Hk. apply list_elem_of_fmap. by exists (k', v).
Qed.

(** The rows of a table: distinct row keys, and every row a dictionary
    with distinct keys and at least one column. *)
Lemma parse_rows_wf blok_name data :
  NoDup (ODict.keys (parse_rows blok_name data))
  /\ forall row cols, (row, cols) ∈ parse_rows blok_name data ->
       NoDup (ODict.keys cols) /\ cols <> [].
Proof.
  unfold parse_rows.
  match goal with |- context [fold_left ?f] => set (step := f) end.
  assert (H : forall l acc,
    (NoDup (ODict.keys acc)
     /\ forall r cs, (r, cs) ∈ acc -> NoDup (ODict.keys cs) /\ cs <> []) ->
    NoDup (ODict.keys (fold_left step l acc))
    /\ forall r cs, (r, cs) ∈ fold_left step l acc ->
         NoDup (ODict.keys cs) /\ cs <> []).
  { induction l as [| [k0 v0] l IH]; intros acc Hacc; simpl; [exact Hacc |].
    apply IH. destruct Hacc as [Hnd Hall].
    destruct (address _) as [[r0 c0] |]; [| by split].
    unfold ODict.set2. split; [by apply NoDup_keys_set |].
    intros r cs Hin. apply ODictFacts.elem_of_set in Hin as [[-> ->] | Hin];
      [| by eapply Hall].
    split; [| apply ODictFacts.set_not_empty].
    apply NoDup_keys_set.
    destruct (ODict.get r0 acc) as [old |] eqn:E; simpl.
    - apply ODictFacts.get_elem_of in E. by eapply Hall.
    - constructor. }
  apply H. split; [constructor | by intros ?? ?%elem_of_nil].
Qed.

Lemma NoDup_keys_collect_blok_raw rekap :
  NoDup (ODict.keys (collect_blok_raw rekap)).
Proof.
  unfold collect_blok_raw.
  match goal with |- context [fold_left ?f] => set (step := f) end.
  assert (H : forall l acc, NoDup (ODict.keys acc) ->
                            NoDup (ODict.keys (fold_left step l acc))).
  { induction l as [| [k0 v0] l IH]; intros acc Hacc; simpl; [done |].
    apply IH. destruct (classify_blok_key k0) as [b |]; [| done].
    destruct (String.eqb b ""); [done |]. by apply NoDup_keys_set. }
  apply H. constructor.
Qed.

Lemma NoDup_keys_parse_blok_data rekap :
  NoDup (ODict.keys (parse_blok_data rekap)).
Proof.
  unfold parse_blok_data.
  match goal with |- context [fold_left ?f] => set (step := f) end.
  assert (H : forall l acc, NoDup (ODict.keys acc) ->
                            NoDup (ODict.keys (fold_left step l acc))).
  { induction l as [| [b0 d0] l IH]; intros acc Hacc; simpl; [done |].
    apply IH. destruct (any_not_None d0); simpl; [| done].
    destruct (parse_rows b0 d0) eqn:E; [done |]. by apply NoDup_keys_set. }
  apply H. constructor.
Qed.

(** X5. The result is a well-formed nested dictionary: no section name
    twice, in a table no row key twice, in a row no column key twice, and
    every row of every table has at least one column. *)
Theorem parse_blok_data_wf (rekap : ODict.t value) :
  NoDup (ODict.keys (parse_blok_data rekap))
  /\ forall blok_name rows, (blok_name, rows) ∈ parse_blok_data rekap ->
       NoDup (ODict.keys rows)
       /\ forall row cols, (row, cols) ∈ rows ->
            NoDup (ODict.keys cols) /\ cols <> [].
Proof.
  split; [apply NoDup_keys_parse_blok_data |].
  intros blok_name rows Hin.
  apply parse_blok_data_rows in Hin as (data & _ & _ & ->).
  apply parse_rows_wf.
Qed.

(** ** The table as a function of the record *)

Lemma classify_blok_key_not_empty key b :
  classify_blok_key key = Some b -> String.eqb b "" = false.
Proof.
  intros H. apply classify_blok_key_names in H. simpl in H.
  repeat (destruct H as [<- | H]; [done |]). done.
Qed.

(** [blok_raw] holds, for a section, its fields in the order of the
    record, when the record has no key twice. *)
Lemma collect_blok_raw_get rekap blok_name :
  NoDup (ODict.keys rekap) ->
  ODict.get blok_name (collect_blok_raw rekap)
  = match fields_of_section blok_name rekap with
    | [] => None
    | fs => Some fs
    end.
Proof.
  unfold collect_blok_raw.
  match goal with |- context [fold_left ?f] => set (step := f) end.
  assert (H : forall l acc,
    NoDup (ODict.keys l) ->
    (forall d, ODict.get blok_name acc = Some d ->
       forall k, k ∈ ODict.keys d -> k ∉ ODict.keys l) ->
    ODict.get blok_name (fold_left step l acc)
    = match ODict.get blok_name acc, fields_of_section blok_name l with
      | Some d, fs => Some (d ++ fs)
      | None, [] => None
      | None, fs => Some fs
      end).
  { induction l as [| [k0 v0] l IH]; intros acc Hnd Hacc.
    - simpl. destruct (ODict.get blok_name acc); [by rewrite app_nil_r | done].
    - cbn [fold_left]. unfold ODict.keys in Hnd. cbn [map fst] in Hnd.
      apply NoDup_cons in Hnd as [Hk0 Hnd]. fold (ODict.keys l) in Hk0, Hnd.
      assert (Hacc' : forall d, ODict.get blok_name acc = Some d ->
                forall k, k ∈ ODict.keys d -> (k ∉ ODict.keys l) /\ k <> k0).
      { intros d Hd k Hk. specialize (Hacc d Hd k Hk).
        unfold ODict.keys in Hacc. cbn [map fst] in Hacc.
        apply not_elem_of_cons in Hacc. tauto. }
      unfold fields_of_section. cbn [List.filter fst].
      fold (fields_of_section blok_name l).
      unfold step at 2.
      destruct (classify_blok_key k0) as [b0 |] eqn:Ec.
      + rewrite (classify_blok_key_not_empty _ _ Ec).
        destruct (decide (b0 = blok_name)) as [-> | Hne].
        * rewrite bool_decide_eq_true_2 by done.
          rewrite IH; [| done |].
          -- unfold ODict.set2. rewrite ODictFacts.get_set_eq.
             destruct (ODict.get blok_name acc) as [d |] eqn:Ed; simpl.
             ++ rewrite set_fresh.
                ** by rewrite <- app_assoc.
                ** intros Hin. by destruct (Hacc' d eq_refl k0 Hin).
             ++ done.
          -- unfold ODict.set2. rewrite ODictFacts.get_set_eq.
             intros d' [= <-] k Hk.
             destruct (ODict.get blok_name acc) as [d |] eqn:Ed; simpl in Hk.
             ++ rewrite set_fresh in Hk.
                ** unfold ODict.keys in Hk. rewrite map_app, elem_of_app in Hk.
                   destruct Hk as [Hk | Hk].
                   --- by destruct (Hacc' d eq_refl k Hk).
                   --- apply list_elem_of_singleton in Hk. by subst.
                ** intros Hin. by destruct (Hacc' d eq_refl k0 Hin).
             ++ apply list_elem_of_singleton in Hk. by subst.
        * rewrite bool_decide_eq_false_2 by congruence.
          rewrite IH; [| done |].
          -- unfold ODict.set2. by rewrite ODictFacts.get_set_ne.
          -- unfold ODict.set2. rewrite ODictFacts.get_set_ne by done.
             intros d Hd k Hk. by destruct (Hacc' d Hd k Hk).
      + rewrite bool_decide_eq_false_2 by congruence.
        apply IH; [done |]. intros d Hd k Hk. by destruct (Hacc' d Hd k Hk). }
  intros Hnd. rewrite H; [done | done | done].
Qed.

(** Writing a cell and reading a cell of one table. *)
Lemma get_set2 {V} (r c row col : string) (v : V) (d : ODict.t (ODict.t V)) :
  (cols ← ODict.get row (ODict.set2 r c v d); ODict.get col cols)
  = if bool_decide ((r, c) = (row, col)) then Some v
    else cols ← ODict.get row d; ODict.get col cols.
Proof.
  unfold ODict.set2. destruct (decide (r = row)) as [-> | Hr].
  - rewrite ODictFacts.get_set_eq. simpl.
    destruct (decide (c = col)) as [-> | Hc].
    + rewrite ODictFacts.get_set_eq. by rewrite bool_decide_eq_true_2.
    + rewrite ODictFacts.get_set_ne by done.
      rewrite bool_decide_eq_false_2 by congruence.
      by destruct (ODict.get row d).
  - rewrite ODictFacts.get_set_ne by done.
    by rewrite bool_decide_eq_false_2 by congruence.
Qed.

(** A cell of [parse_rows] holds the value of the last field with that
    address. *)
Lemma parse_rows_get blok_name data row col :
  (cols ← ODict.get row (parse_rows blok_name data); ODict.get col cols)
  = fold_left
      (fun acc '(key, v) =>
         if bool_decide (address (suffix_from (String.length blok_name) key)
                         = Some (row, col))
         then Some v else acc)
      data None.
Proof.
  unfold parse_rows.
  match goal with |- context [fold_left ?f _ []] => set (step := f) end.
  match goal with |- _ = fold_left ?f _ _ => set (sel := f) end.
  assert (H : forall l acc,
    (cols ← ODict.get row (fold_left step l acc); ODict.get col cols)
    = fold_left sel l (cols ← ODict.get row acc; ODict.get col cols)).
  { induction l as [| [k0 v0] l IH]; intros acc; [done |].
    cbn [fold_left]. rewrite IH. f_equal. unfold step, sel.
    destruct (address _) as [[r0 c0] |] eqn:E.
    - rewrite get_set2. destruct (decide ((r0, c0) = (row, col))) as [[= -> ->] | Hne].
      + by rewrite !bool_decide_eq_true_2.
      + rewrite !bool_decide_eq_false_2; [done | congruence | done].
    - by rewrite bool_decide_eq_false_2. }
  apply H.
Qed.

(** The table of a section, from [blok_raw] with distinct names. *)
Lemma parse_blok_data_get rekap blok_name :
  ODict.get blok_name (parse_blok_data rekap)
  = match ODict.get blok_name (collect_blok_raw rekap) with
    | Some data =>
        if any_not_None data then
          match parse_rows blok_name data with
          | [] => None
          | rows => Some rows
          end
        else None
    | None => None
    end.
Proof.
  unfold parse_blok_data.
  match goal with |- context [fold_left ?f] => set (step := f) end.
  pose proof (NoDup_keys_collect_blok_raw rekap) as Hnd.
  assert (H : forall l acc,
    NoDup (ODict.keys l) ->
    ODict.get blok_name (fold_left step l acc)
    = match ODict.get blok_name l with
      | Some data =>
          if any_not_None data then
            match parse_rows blok_name data with
            | [] => ODict.get blok_name acc
            | rows => Some rows
            end
          else ODict.get blok_name acc
      | None => ODict.get blok_name acc
      end).
  { induction l as [| [b0 d0] l IH]; intros acc Hl; [done |].
    cbn [fold_left ODict.get]. unfold ODict.keys in Hl. cbn [map fst] in Hl.
    apply NoDup_cons in Hl as [Hb0 Hl]. fold (ODict.keys l) in Hb0, Hl.
    rewrite IH by done.
    destruct (String.eqb_spec blok_name b0) as [-> | Hne].
    - apply get_None_keys in Hb0. rewrite Hb0. unfold step.
      destruct (any_not_None d0); simpl; [| done].
      destruct (parse_rows b0 d0) eqn:E; [done |].
      by rewrite ODictFacts.get_set_eq.
    - assert (Hsame : ODict.get blok_name (step acc (b0, d0))
                      = ODict.get blok_name acc).
      { unfold step. destruct (any_not_None d0); simpl; [| done].
        destruct (parse_rows b0 d0) eqn:E; [done |].
        by rewrite ODictFacts.get_set_ne by done. }
      by rewrite Hsame. }
  rewrite H by done. simpl.
  destruct (ODict.get blok_name (collect_blok_raw rekap)) as [data |]; [| done].
  destruct (any_not_None data); [| done]. by destruct (parse_rows blok_name data).
Qed.

Lemma any_not_None_fields rekap blok_name :
  any_not_None (fields_of_section blok_name rekap)
  = section_has_value rekap blok_name.
Proof.
  unfold any_not_None, ODict.values, section_has_value, fields_of_section.
  induction rekap as [| [k v] l IH]; [done |].
  cbn [List.filter existsb fst].
  destruct (bool_decide (classify_blok_key k = Some blok_name)); simpl.
  - by rewrite IH.
  - exact IH.
Qed.

Lemma last_field_fields rekap blok_name row col :
  last_field rekap blok_name row col
  = fold_left
      (fun acc '(key, v) =>
         if bool_decide (address (suffix_from (String.length blok_name) key)
                         = Some (row, col))
         then Some v else acc)
      (fields_of_section blok_name rekap) None.
Proof.
  unfold last_field, fields_of_section. generalize (@None value).
  induction rekap as [| [k v] l IH]; intros acc; [done |].
  cbn [fold_left List.filter fst].
  destruct (bool_decide (classify_blok_key k = Some blok_name)) eqn:E.
  - cbn [fold_left].
    replace (cell_of blok_name k)
      with (address (suffix_from (String.length blok_name) k))
      by (unfold cell_of; by rewrite E).
    apply IH.
  - replace (cell_of blok_name k) with (@None (string * string))
      by (unfold cell_of; by rewrite E).
    rewrite bool_decide_eq_false_2 by done. apply IH.
Qed.

(** X6. For a record without a key twice, the tables are this function of
    the record: the cell (section, row, column) is defined when some field
    of the section has a value and some field of the section has that
    address, and it holds the value of the last such field of the
    record. *)
Theorem parse_blok_data_cell (rekap : ODict.t value) (blok_name row col : string) :
  NoDup (ODict.keys rekap) ->
  cell (parse_blok_data rekap) blok_name row col
  = if section_has_value rekap blok_name
    then last_field rekap blok_name row col
    else None.
Proof.
  intros Hnd. unfold cell.
  rewrite parse_blok_data_get, collect_blok_raw_get by done.
  rewrite <- any_not_None_fields, last_field_fields.
  rewrite <- parse_rows_get.
  destruct (fields_of_section blok_name rekap) as [| f fs] eqn:E; [done |].
  destruct (any_not_None (f :: fs)); [| done].
  by destruct (parse_rows blok_name (f :: fs)).
Qed.

Lemma parse_blok_data_cell_witness :
  cell (parse_blok_data [("B6R8", VInt 5); ("Kab", VStr "71"); ("B6R8K4", VInt 6);
                         ("B6R9", VNone)]) "B6" "8" "K4"
  = Some (VInt 6).
Proof.
  rewrite (parse_blok_data_cell
             [("B6R8", VInt 5); ("Kab", VStr "71"); ("B6R8K4", VInt 6);
              ("B6R9", VNone)] "B6" "8" "K4").
  - reflexivity.
  - apply (bool_decide_unpack _). vm_compute. exact I.
Defined.

(** ** The individual bucket, person by person *)

Lemma individu_sorted komoditi_rows :
  StronglySorted key_le (split_komoditi komoditi_rows).1.2.
Proof.
  unfold split_komoditi. cbn [fst snd].
  eapply StronglySorted_weaken; [| apply sort_by_sorted].
  - intros a b. apply not_after_key_le.
  - apply tuple_lt_asym.
  - apply tuple_not_lt_trans.
Qed.

Lemma key_le_str_le a b : key_le a b -> str_le (IDART_or_empty a) (IDART_or_empty b).
Proof. unfold key_le, str_le. tauto. Qed.


Lemma str_lt_irrefl a : ~ str_lt a a.
Proof. unfold str_lt. by rewrite string_compare_refl. Qed.

Lemma filter_all {A} (f : A -> bool) l :
  Forall (fun x => f x = true) l -> List.filter f l = l.
Proof. induction 1 as [| x l Hx _ IH]; simpl; [done |]. by rewrite Hx, IH. Qed.

Lemma filter_none {A} (f : A -> bool) l :
  Forall (fun x => f x = false) l -> List.filter f l = [].
Proof. induction 1 as [| x l Hx _ IH]; simpl; [done |]. by rewrite Hx. Qed.

Lemma Forall_List_filter {A} (f : A -> bool) l :
  Forall (fun x => f x = true) (List.filter f l).
Proof.
  apply Forall_forall. intros x Hx. by apply elem_of_List_filter in Hx as [_ ?].
Qed.

(** X7. Splitting the three buckets once more changes nothing: the lines
    of the buckets, put in one list, are split into the same buckets, the
    individual one in the same order. *)
Theorem split_komoditi_again (komoditi_rows : list komoditi) :
  let '(makanan, individu, non_makanan) := split_komoditi komoditi_rows in
  split_komoditi (makanan ++ individu ++ non_makanan)
  = (makanan, individu, non_makanan).
Proof.
  pose proof (individu_sorted komoditi_rows) as Hs.
  pose proof (split_komoditi_elem_of komoditi_rows) as Hin.
  destruct (split_komoditi komoditi_rows) as [[makanan individu] non_makanan].
  cbn [fst snd] in Hs, Hin.
  assert (Hm : Forall (fun k => has_any_value k = true /\ is_makanan k = true
                 /\ is_individu k = false /\ is_non_makanan k = false) makanan).
  { apply Forall_forall. intros k Hk. apply Hin in Hk.
    destruct (one_range k) as [? | [? | ?]]; intuition congruence. }
  assert (Hi : Forall (fun k => has_any_value k = true /\ is_makanan k = false
                 /\ is_individu k = true /\ is_non_makanan k = false) individu).
  { apply Forall_forall. intros k Hk. apply Hin in Hk.
    destruct (one_range k) as [? | [? | ?]]; intuition congruence. }
  assert (Hn : Forall (fun k => has_any_value k = true /\ is_makanan k = false
                 /\ is_individu k = false /\ is_non_makanan k = true) non_makanan).
  { apply Forall_forall. intros k Hk. apply Hin in Hk.
    destruct (one_range k) as [? | [? | ?]]; intuition congruence. }
  unfold split_komoditi. cbv zeta.
  rewrite (filter_all has_any_value).
  2:{ rewrite !Forall_app. split_and!; eapply Forall_impl; eauto; simpl; tauto. }
  rewrite !List.filter_app.
  rewrite (filter_all is_makanan makanan), (filter_none is_makanan individu),
    (filter_none is_makanan non_makanan), (filter_none is_individu makanan),
    (filter_all is_individu individu), (filter_none is_individu non_makanan),
    (filter_none is_non_makanan makanan), (filter_none is_non_makanan individu),
    (filter_all is_non_makanan non_makanan);
    try (eapply Forall_impl; eauto; simpl; tauto).
  rewrite !app_nil_r. cbn [app].
  rewrite sort_by_sorted_id; [done |].
  eapply StronglySorted_weaken; [| exact Hs]. intros a b. apply not_after_key_le.
Qed.

Lemma same_key_individu c k :
  same_key individu_key tuple_lt c k = true <-> individu_key k = individu_key c.
Proof.
  unfold same_key. rewrite andb_true_iff, !negb_true_iff, !tuple_lt_false.
  unfold individu_key; simpl. split.
  - intros [[H1 | [H1 H1']] [H2 | [H2 H2']]].
    + pose proof (string_compare_trans _ _ _ H1 H2) as H.
      by rewrite string_compare_refl in H.
    + rewrite H2 in H1. by rewrite string_compare_refl in H1.
    + rewrite H1 in H2. by rewrite string_compare_refl in H2.
    + f_equal; [done | lia].
  - intros [= -> ->]. split; right; split; (done || lia).
Qed.

(** X8. The sort of the individual bucket is stable: the lines that
    have the same person id and the same sequence number (absent read as
    the empty string and as 0) stand in the bucket in the order they have
    in the input. *)
Theorem individu_stable (komoditi_rows : list komoditi) (c : komoditi) :
  let same k := bool_decide (individu_key k = individu_key c) in
  List.filter same (split_komoditi komoditi_rows).1.2
  = List.filter same
      (List.filter is_individu (List.filter has_any_value komoditi_rows)).
Proof.
  intros same.
  assert (Hsame : forall l, List.filter same l
                            = List.filter (same_key individu_key tuple_lt c) l).
  { intros l. apply filter_ext. intros k. unfold same.
    destruct (same_key individu_key tuple_lt c k) eqn:E.
    - apply same_key_individu in E. by apply bool_decide_eq_true_2.
    - apply bool_decide_eq_false_2. intros H. apply same_key_individu in H.
      congruence. }
  rewrite !Hsame. unfold split_komoditi. cbn [fst snd].
  apply sort_by_stable; [apply tuple_lt_asym | apply tuple_not_lt_trans].
Qed.



(** ** Person numbers on the sorted bucket *)

Lemma person_ids_cons item l :
  person_ids (item :: l)
  = if has_person item then IDART_or_empty item :: person_ids l else person_ids l.
Proof.
  unfold person_ids. simpl. destruct (has_person item) eqn:E; [| done].
  unfold has_person in E. unfold IDART_or_empty.
  by destruct (IDART item).
Qed.

Lemma elem_of_person_ids id l :
  id ∈ person_ids l ->
  exists item, item ∈ l /\ IDART_or_empty item = id.
Proof.
  unfold person_ids. rewrite list_elem_of_omap. intros (item & Hin & H).
  exists item. split; [done |]. unfold IDART_or_empty.
  destruct (has_person item); [| done]. by rewrite H.
Qed.

(** The person ids of a sorted bucket are in order. *)
Lemma person_ids_sorted l :
  StronglySorted key_le l -> StronglySorted str_le (person_ids l).
Proof.
  induction 1 as [| x r Hs IH Hx]; [constructor |].
  rewrite person_ids_cons. destruct (has_person x); [| done].
  constructor; [done |]. apply Forall_forall. intros id Hid.
  apply elem_of_person_ids in Hid as (item & Hin & <-).
  rewrite Forall_forall in Hx. by apply key_le_str_le, Hx.
Qed.

(** First appearances in a list in order are in strict order. *)
Lemma first_appearances_sorted seen ids :
  StronglySorted str_le ids -> StronglySorted str_lt (first_appearances seen ids).
Proof.
  intros Hs. revert seen. induction Hs as [| x r Hs IH Hx]; intros seen; simpl.
  - constructor.
  - destruct (existsb (String.eqb x) seen); [apply IH |].
    constructor; [apply IH |]. apply Forall_forall. intros y Hy.
    apply elem_of_first_appearances in Hy as [Hy Hn].
    rewrite elem_of_app, list_elem_of_singleton in Hn.
    rewrite Forall_forall in Hx. destruct (Hx y Hy) as [H | ->]; [done | tauto].
Qed.

Lemma StronglySorted_lookup_lt {A} (R : A -> A -> Prop) l (i j : nat) a b :
  StronglySorted R l -> l !! i = Some a -> l !! j = Some b -> (i < j)%nat -> R a b.
Proof.
  intros Hs. revert i j. induction Hs as [| x r Hs IH Hx]; intros i j; [done |].
  destruct i as [| i], j as [| j]; simpl; try lia.
  - intros [= <-] Hb _. rewrite Forall_forall in Hx.
    apply Hx. by eapply list_elem_of_lookup_2.
  - intros Ha Hb Hij. apply (IH i j); [done | done | lia].
Qed.

(** X10. On the individual bucket of [split_komoditi] the person numbers
    follow the person ids: a person gets a smaller number than another
    exactly when its id is the smaller string. *)
Theorem person_numbers_follow_ids (komoditi_rows : list komoditi)
    (a b : string) (na nb : Z) :
  let idart_map := build_idart_map (split_komoditi komoditi_rows).1.2 in
  idart_map !! a = Some na -> idart_map !! b = Some nb ->
  (na < nb <-> String.compare a b = Lt).
Proof.
  intros idart_map Ha Hb.
  apply build_idart_map_lookup in Ha as (ia & Ha & ->).
  apply build_idart_map_lookup in Hb as (ib & Hb & ->).
  rewrite seen_idart_first_appearances in Ha, Hb.
  pose proof (first_appearances_sorted []
                _ (person_ids_sorted _ (individu_sorted komoditi_rows))) as Hs.
  split.
  - intros Hlt. apply (StronglySorted_lookup_lt _ _ ia ib a b Hs Ha Hb). lia.
  - intros Hab. destruct (Nat.lt_trichotomy ia ib) as [H | [H | H]]; [lia | |].
    + subst ib. rewrite Ha in Hb. injection Hb as <-.
      by rewrite string_compare_refl in Hab.
    + pose proof (StronglySorted_lookup_lt _ _ ib ia b a Hs Hb Ha H) as Hba.
      pose proof (string_compare_trans _ _ _ Hab Hba) as Haa.
      by rewrite string_compare_refl in Haa.
Qed.

Lemma person_numbers_follow_ids_witness :
  let line n id := {| NoUrutKomoditiFK := Some n; IDART := Some id;
                      slots := [VInt 1]; Rincian := None; KodeCOICOP := None |} in
  (1 < 2 <-> String.compare "01" "02" = Lt).
Proof.
  intros line.
  apply (person_numbers_follow_ids
           [line 200 "02"; line 186 "02"; line 186 "01"; line 5 "03"] "01" "02" 1 2);
    reflexivity.
Defined.

(** ** Whole numbers through the formatters *)

Lemma digits2_pos_le p k :
  0 <= k -> Zpos p < 2 ^ k -> Zpos (digits2_pos p) <= k.
Proof.
  revert k. induction p as [p IH | p IH |]; intros k Hk Hp; simpl.
  - assert (k <> 0) by (intros ->; simpl in Hp; lia).
    replace k with (Z.succ (k - 1)) in Hp by lia.
    rewrite Z.pow_succ_r in Hp by lia. specialize (IH (k - 1)). lia.
  - assert (k <> 0) by (intros ->; simpl in Hp; lia).
    replace k with (Z.succ (k - 1)) in Hp by lia.
    rewrite Z.pow_succ_r in Hp by lia. specialize (IH (k - 1)). lia.
  - assert (k <> 0) by (intros ->; simpl in Hp; lia). lia.
Qed.

Lemma iter_xO_digits p k :
  digits2_pos (Pos.iter xO p k) = (digits2_pos p + k)%positive.
Proof.
  induction k as [| k IH] using Pos.peano_ind.
  - simpl. lia.
  - rewrite Pos.iter_succ. simpl. rewrite IH. lia.
Qed.

Lemma iter_xO_value p k : Zpos (Pos.iter xO p k) = Zpos p * 2 ^ Zpos k.
Proof.
  induction k as [| k IH] using Pos.peano_ind.
  - simpl. lia.
  - rewrite Pos.iter_succ, Pos2Z.inj_xO, IH, Pos2Z.inj_succ, Z.pow_succ_r by lia.
    lia.
Qed.

(** A mantissa of 53 bits with an exponent in range is not rounded. *)
Lemma binary_round_aux_exact s m e :
  Zpos (digits2_pos m) = 53 -> -1074 <= e <= 971 ->
  binary_round_aux 53 1024 s (Zpos m) e loc_Exact = S754_finite s m e.
Proof.
  intros Hd He. unfold binary_round_aux, shr_fexp, fexp, emin.
  cbn [Zdigits2 shr_record_of_loc]. rewrite Hd.
  replace (Z.max (53 + e - 53) (3 - 1024 - 53) - e) with 0 by lia.
  cbn [shr shr_m loc_of_shr_record round_nearest_even Zdigits2]. rewrite Hd.
  replace (Z.max (53 + e - 53) (3 - 1024 - 53) - e) with 0 by lia.
  cbn [shr shr_m].
  replace (e <=? 1024 - 53) with true by (symmetry; apply Z.leb_le; lia).
  done.
Qed.

(** Below 2^53 an integer is a float. *)
Lemma binary_round_exact s p :
  Zpos p < 2 ^ 53 ->
  exists m e, binary_round 53 1024 s p 0 = S754_finite s m e
              /\ -52 <= e <= 0 /\ Zpos m = Zpos p * 2 ^ (- e).
Proof.
  intros Hp. pose proof (digits2_pos_le p 53 ltac:(lia) Hp) as Hd.
  unfold binary_round, shl_align, fexp, emin.
  replace (Z.max (Zpos (digits2_pos p) + 0 - 53) (3 - 1024 - 53))
    with (Zpos (digits2_pos p) - 53) by lia.
  destruct (Zpos (digits2_pos p) - 53 - 0) as [| k | k] eqn:E; [| lia |].
  - exists p, 0. split; [| split; [lia | simpl; lia]].
    apply binary_round_aux_exact; lia.
  - exists (Pos.iter xO p k), (Zpos (digits2_pos p) - 53).
    split; [| split; [lia |]].
    + apply binary_round_aux_exact; [| lia]. rewrite iter_xO_digits. lia.
    + rewrite iter_xO_value. f_equal. f_equal. lia.
Qed.

Lemma scaled_exact m e P :
  e <= 0 -> Zpos m = P * 2 ^ (- e) -> Float.scaled m e 0 = P.
Proof.
  intros He Hm. unfold Float.scaled. simpl (10 ^ Z.of_nat 0). rewrite !Z.mul_1_r.
  destruct (Z.leb_spec 0 e) as [H0 | H0].
  - assert (e = 0) as -> by lia. simpl in *. lia.
  - unfold Float.div_half_even. rewrite Hm.
    assert (Hpow : 0 < 2 ^ (- e)) by (apply Z.pow_pos_nonneg; lia).
    rewrite Z.div_mul, Z.mod_mul by lia.
    assert (Hc : (2 * 0 ?= 2 ^ (- e)) = Lt) by (apply Z.compare_lt_iff; lia).
    by rewrite Hc.
Qed.

Lemma uint_digits d :
  Forall (fun a => Chars.is_digit a = true)
         (list_ascii_of_string (NilEmpty.string_of_uint d)).
Proof. induction d; simpl; constructor; done. Qed.

Lemma digits_of_nonneg n : 0 <= n -> digit_run (Float.digits_of n).
Proof.
  intros Hn. unfold Float.digits_of, Chars.str_of_Z, digit_run.
  assert (Hd : exists d, Z.to_int n = Decimal.Pos d)
    by (destruct n; [by eexists.. | lia]).
  destruct Hd as [d ->]. cbn [NilZero.string_of_int]. unfold NilZero.string_of_uint.
  destruct d; try (split; [done | apply (uint_digits (_ _))]).
  split; [done | by repeat constructor].
Qed.

Lemma str_of_Z_neg p :
  Chars.str_of_Z (Zneg p) = String "-" (Chars.str_of_Z (Zpos p)).
Proof. reflexivity. Qed.

(** The separators of [group3] are all that it adds. *)
Lemma group3_rev_filter (f : ascii -> bool) (l : list ascii) :
  f ","%char = false ->
  List.filter f (Float.group3_rev l) = List.filter f l.
Proof.
  intros Hf.
  assert (H : forall n l, (length l <= n)%nat ->
                          List.filter f (Float.group3_rev l) = List.filter f l).
  { clear l. induction n as [| n IH]; intros l Hl.
    - destruct l; [done | simpl in Hl; lia].
    - destruct l as [| a [| b [| c [| d r]]]]; try done.
      change (Float.group3_rev (a :: b :: c :: d :: r))
        with (a :: b :: c :: ","%char :: Float.group3_rev (d :: r)).
      set (X := Float.group3_rev (d :: r)).
      assert (HX : List.filter f X = List.filter f (d :: r))
        by (apply IH; simpl in *; lia).
      clearbody X. cbn [List.filter] in *. rewrite Hf, HX. done. }
  by apply (H (length l)).
Qed.

Lemma filter_rev {A} (f : A -> bool) l :
  List.filter f (rev l) = rev (List.filter f l).
Proof.
  induction l as [| x l IH]; [done |]. cbn [rev List.filter].
  rewrite List.filter_app, IH. cbn [List.filter]. by destruct (f x); rewrite ?app_nil_r.
Qed.

Lemma without_commas_group3 sign ds :
  Forall (fun a => Chars.is_digit a = true) ds ->
  sign = [] \/ sign = ["-"%char] ->
  without_commas (string_of_list_ascii (sign ++ Float.group3 ds))
  = string_of_list_ascii (sign ++ ds).
Proof.
  intros Hd Hs. unfold without_commas. f_equal.
  rewrite list_ascii_of_string_of_list_ascii, List.filter_app.
  unfold Float.group3. rewrite filter_rev, group3_rev_filter by done.
  rewrite <- filter_rev, rev_involutive. f_equal.
  - by destruct Hs as [-> | ->].
  - apply filter_all. eapply Forall_impl; [exact Hd |].
    intros a Ha. destruct (Ascii.eqb_spec a ","); [by subst | done].
Qed.

Lemma fixed_0 neg n :
  0 <= n ->
  Float.fixed neg n 0
  = string_of_list_ascii
      ((if neg then ["-"%char] else []) ++ Float.group3 (Float.digits_of n)).
Proof.
  intros Hn. destruct (digits_of_nonneg n Hn) as [Hne _].
  unfold Float.fixed. f_equal. f_equal.
  destruct (Float.digits_of n) as [| a ds]; [done |].
  cbn [length Nat.sub repeat app]. rewrite Nat.sub_0_r, app_nil_r.
  by rewrite firstn_all.
Qed.

(** X11. A whole number below 2^53 goes through both formatters
    unharmed: [fmt_currency] and [fmt_number] return the same text, and
    the text without its thousands separators is the decimal numeral of
    the number, [str(n)]. *)
Theorem fmt_int_exact (n : Z) :
  Z.abs n < 2 ^ 53 ->
  exists s, fmt_currency (VInt n) = Ok s
            /\ fmt_number (VInt n) = Ok s
            /\ without_commas s = Chars.str_of_Z n.
Proof.
  intros Hn. destruct n as [| p | p].
  - exists "0". by vm_compute.
  - destruct (binary_round_exact false p ltac:(lia)) as (m & e & Hr & He & Hm).
    exists (Float.fixed false (Zpos p) 0).
    unfold fmt_currency, fmt_number, py_float, Float.of_int, Float.of_Z,
      binary_normalize, Float.prec, Float.emax.
    rewrite Hr. cbn [is_None mbind result_bind try_except Float.format_f
                     Float.to_int Float.eq_int].
    rewrite (scaled_exact m e (Zpos p)) by (done || lia).
    split; [done |]. split.
    + destruct (Z.leb_spec 0 e) as [H0 | H0].
      * by rewrite Z.eqb_refl.
      * rewrite Hm, Z.div_mul by (apply Z.pow_nonzero; lia).
        by rewrite Z.eqb_refl.
    + rewrite fixed_0 by lia.
      rewrite (without_commas_group3 [] _); [| apply digits_of_nonneg; lia | by left].
      unfold Float.digits_of. apply string_of_list_ascii_of_string.
  - destruct (binary_round_exact true p ltac:(lia)) as (m & e & Hr & He & Hm).
    exists (Float.fixed true (Zpos p) 0).
    unfold fmt_currency, fmt_number, py_float, Float.of_int, Float.of_Z,
      binary_normalize, Float.prec, Float.emax.
    rewrite Hr. cbn [is_None mbind result_bind try_except Float.format_f
                     Float.to_int Float.eq_int].
    rewrite (scaled_exact m e (Zpos p)) by (done || lia).
    split; [done |]. split.
    + destruct (Z.leb_spec 0 e) as [H0 | H0].
      * replace (Z.neg m * 2 ^ e) with (- (Z.pos m * 2 ^ e)) by lia.
        by rewrite Z.eqb_refl.
      * rewrite Hm, Z.div_mul by (apply Z.pow_nonzero; lia).
        replace (- Zpos p * 2 ^ (- e)) with (Zneg m) by lia.
        by rewrite Z.eqb_refl.
    + rewrite fixed_0 by lia.
      rewrite (without_commas_group3 ["-"%char] _);
        [| apply digits_of_nonneg; lia | by right].
      rewrite str_of_Z_neg. cbn [app string_of_list_ascii]. f_equal.
      unfold Float.digits_of. apply string_of_list_ascii_of_string.
Qed.

Lemma fmt_int_exact_witness :
  exists s, fmt_currency (VInt (-1234567)) = Ok s
            /\ fmt_number (VInt (-1234567)) = Ok s
            /\ without_commas s = Chars.str_of_Z (-1234567).
Proof. apply (fmt_int_exact (-1234567)). reflexivity. Defined.

(** ** What the formatters return and raise *)

Lemma string_of_list_ascii_not_empty l :
  l <> [] -> string_of_list_ascii l <> "".
Proof. by destruct l. Qed.

Lemma app_cons_not_nil' {A} (l1 l2 : list A) x : l1 ++ x :: l2 <> [].
Proof. by destruct l1. Qed.

Lemma repr_layout_not_empty ds decpt : Float.repr_layout ds decpt <> [].
Proof.
  unfold Float.repr_layout.
  destruct ((16 <? decpt) || (decpt <? -3)).
  - destruct (skipn 1 ds); rewrite ?app_assoc; apply app_cons_not_nil'.
  - destruct (decpt <=? 0); [done |].
    destruct (Z.of_nat (length ds) <=? decpt).
    + rewrite app_assoc. apply app_cons_not_nil'.
    + apply app_cons_not_nil'.
Qed.

Lemma repr_not_empty x : Float.repr x <> "".
Proof.
  destruct x as [[] | [] | | s m e]; try done.
  unfold Float.repr. destruct (Float.repr_digits m e) as [ds decpt].
  apply string_of_list_ascii_not_empty.
  destruct s; [done |]. apply repr_layout_not_empty.
Qed.

Lemma str_of_Z_not_empty n : Chars.str_of_Z n <> "".
Proof.
  destruct n as [| p | p]; [done | | done].
  unfold Chars.str_of_Z. cbn [Z.to_int NilZero.string_of_int].
  unfold NilZero.string_of_uint. by destruct (Pos.to_uint p).
Qed.

(** X12. [val_or_dash] never returns the empty text: the cell shows the
    dash or at least one character. *)
Theorem val_or_dash_not_empty (val : value) : val_or_dash val <> "".
Proof.
  destruct val as [| n | x | s]; try done.
  - apply str_of_Z_not_empty.
  - apply repr_not_empty.
  - unfold val_or_dash. simpl. by destruct s.
Qed.

(** X13. The formatters raise nothing but [OverflowError]:
    [fmt_currency] only on an integer that is too large for a float,
    [fmt_number] only on a value whose float is too large or infinite. *)
Theorem fmt_raise_only_OverflowError (val : value) (e : exn) :
  (fmt_currency val = Raise e ->
     e = OverflowError
     /\ exists n s, val = VInt n /\ Float.of_Z n = S754_infinity s)
  /\ (fmt_number val = Raise e ->
     e = OverflowError
     /\ (py_float val = Raise OverflowError
         \/ exists s, py_float val = Ok (S754_infinity s))).
Proof.
  split.
  - unfold fmt_currency. destruct val as [| n | x | s]; cbn; try done.
    + unfold Float.of_int. destruct (Float.of_Z n) as [| s | |] eqn:E; cbn; try done.
      intros [= <-]. split; [done | by exists n, s].
    + by destruct (Float.of_string s).
  - unfold fmt_number. destruct (is_None val); [done |].
    destruct (py_float val) as [[s | s | | s m ex] | []]; cbn; try done.
    + intros [= <-]. split; [done | right; by exists s].
    + intros [= <-]. split; [done | by left].
Qed.

Lemma fmt_number_raise val e : fmt_number val = Raise e -> e = OverflowError.
Proof.
  unfold fmt_number. destruct (is_None val); [done |].
  destruct (py_float val) as [[s | s | | s m ex] | []]; cbn; try done;
    by intros [= <-].
Qed.

(** ** [lainnya_str] *)

Lemma mapM_Ok {A B} (f : A -> result B) l ys :
  mapM f l = Ok ys -> Forall2 (fun x y => f x = Ok y) l ys.
Proof.
  revert ys. induction l as [| x l IH]; intros ys; cbn.
  - intros [= <-]. constructor.
  - destruct (f x) as [y |] eqn:E; cbn; [| done].
    destruct (mapM f l) as [ys' |]; cbn; [| done].
    intros [= <-]. constructor; [done | by apply IH].
Qed.

Lemma mapM_Raise {A B} (f : A -> result B) l e :
  mapM f l = Raise e -> exists x, x ∈ l /\ f x = Raise e.
Proof.
  induction l as [| x l IH]; cbn; [done |].
  destruct (f x) as [y |] eqn:E; cbn.
  - destruct (mapM f l) as [ys' |]; cbn; [done |].
    intros [= <-]. destruct (IH eq_refl) as (x' & Hx & Hf).
    exists x'. split; [by right | done].
  - intros [= <-]. exists x. split; [by left | done].
Qed.

Lemma join_cons_head sep a p r :
  exists rest, join sep (String a p :: r) = String a rest.
Proof. destruct r; by eexists. Qed.

(** X14. [lainnya_str] returns the dash exactly when the slots 7 to 14 of
    the line are all [None]; and it raises nothing but
    [OverflowError]. *)
Theorem lainnya_str_dash (item : komoditi) :
  (lainnya_str item = Ok "-" <->
   forall i, (7 <= i <= 14)%nat -> Kolom item i = VNone)
  /\ (forall e, lainnya_str item = Raise e -> e = OverflowError).
Proof.
  unfold lainnya_str.
  set (idx := List.filter (fun i => negb (is_None (Kolom item i))) (seq 7 8)).
  set (f := fun i : nat => _).
  assert (Hidx : idx = [] <-> forall i, (7 <= i <= 14)%nat -> Kolom item i = VNone).
  { split.
    - intros H i Hi. destruct (Kolom item i) eqn:E; [done | exfalso..];
        (assert (Hin : i ∈ idx);
         [apply elem_of_List_filter; split;
          [apply list_elem_of_In, in_seq; lia | by rewrite E]
         | rewrite H in Hin; by apply elem_of_nil in Hin]).
    - intros H. apply filter_none. apply Forall_forall. intros i Hi.
      apply list_elem_of_In, in_seq in Hi. rewrite H by lia. done. }
  split.
  - rewrite <- Hidx. destruct idx as [| i idx'] eqn:Ei.
    + by cbn.
    + split; [| done]. intros H. exfalso.
      destruct (mapM f (i :: idx')) as [parts |] eqn:Em; cbn in H; [| done].
      apply mapM_Ok in Em.
      apply Forall2_cons_inv_l in Em as (part & parts' & Hp & _ & ->).
      unfold f in Hp. destruct (fmt_number (Kolom item i)); cbn in Hp; [| done].
      injection Hp as <-.
      destruct (join_cons_head ", " "K"
                  (Chars.str_of_Z (Z.of_nat i) +:+ ":" +:+ a) parts') as [rest Hr].
      change ("K" +:+ Chars.str_of_Z (Z.of_nat i) +:+ ":" +:+ a)
        with (String "K" (Chars.str_of_Z (Z.of_nat i) +:+ ":" +:+ a)) in H.
      rewrite Hr in H. discriminate H.
  - intros e H. destruct (mapM f idx) as [parts |] eqn:Em; cbn in H; [done |].
    injection H as <-. apply mapM_Raise in Em as (i & _ & Hf).
    unfold f in Hf. destruct (fmt_number (Kolom item i)) as [s | e'] eqn:En;
      cbn in Hf; [done |].
    injection Hf as <-.
    by apply (fmt_number_raise (Kolom item i)).
Qed.

(** ** [sort_rows] *)

Lemma digit_val_range c : Chars.is_digit c = true -> 0 <= Chars.digit_val c <= 9.
Proof.
  unfold Chars.is_digit, Chars.in_range, Chars.digit_val.
  change (Chars.code "0") with 48. change (Chars.code "9") with 57.
  rewrite andb_true_iff, !Z.leb_le. lia.
Qed.

Lemma Z_of_digits_bound ds :
  Forall (fun a => Chars.is_digit a = true) ds ->
  0 <= Chars.Z_of_digits ds < 10 ^ Z.of_nat (length ds).
Proof.
  unfold Chars.Z_of_digits. intros Hd.
  assert (H : forall acc, 0 <= acc ->
    0 <= fold_left (fun acc c => 10 * acc + Chars.digit_val c) ds acc
      < (acc + 1) * 10 ^ Z.of_nat (length ds)).
  { induction Hd as [| c ds Hc _ IH]; intros acc Hacc.
    - simpl. lia.
    - cbn [fold_left length]. apply digit_val_range in Hc.
      specialize (IH (10 * acc + Chars.digit_val c) ltac:(lia)).
      rewrite Nat2Z.inj_succ, Z.pow_succ_r by lia.
      assert (0 < 10 ^ Z.of_nat (length ds)) by (apply Z.pow_pos_nonneg; lia).
      nia. }
  specialize (H 0 ltac:(lia)). lia.
Qed.

Lemma of_int_small n : Z.abs n < 2 ^ 53 -> exists x, Float.of_int n = Ok x.
Proof.
  intros Hn. unfold Float.of_int, Float.of_Z, binary_normalize, Float.prec,
    Float.emax.
  destruct n as [| p | p]; [by eexists | |].
  - destruct (binary_round_exact false p ltac:(lia)) as (m & e & -> & _).
    by eexists.
  - destruct (binary_round_exact true p ltac:(lia)) as (m & e & -> & _).
    by eexists.
Qed.

Lemma length_list_ascii_of_string s :
  length (list_ascii_of_string s) = String.length s.
Proof. induction s as [| a s IH]; simpl; [done | by rewrite IH]. Qed.

(** The number [sort_key] reads from a row key is below 10 to the length
    of the key. *)
Lemma row_number_bound r :
  0 <= match Re.match_ "(\d+)" r with
       | Some m => Chars.int_of_digits (Re.group m 1)
       | None => 0
       end < 10 ^ Z.of_nat (String.length r).
Proof.
  destruct (Re.match_ "(\d+)" r) as [m |] eqn:E.
  - unfold Re.match_ in E.
    change (Re.compile "(\d+)") with (Some [Re.Chr Re.Digit Re.Plus 1]) in E.
    apply ReFacts.run_sound in E as [HF Hpre]. cbn in HF.
    apply Forall2_cons_inv_l in HF as ([g w] & m' & (Hg & Hd & _) & HF & ->).
    apply Forall2_nil_inv_l in HF as ->. simpl in Hg, Hd. subst g.
    unfold Re.group, Chars.int_of_digits. cbn [List.filter fst Nat.eqb map snd concat].
    rewrite app_nil_r, list_ascii_of_string_of_list_ascii.
    pose proof (Z_of_digits_bound w Hd) as Hb.
    cbn [map snd concat] in Hpre. rewrite app_nil_r in Hpre.
    apply prefix_length in Hpre. rewrite length_list_ascii_of_string in Hpre.
    assert (10 ^ Z.of_nat (length w) <= 10 ^ Z.of_nat (String.length r))
      by (apply Z.pow_le_mono_r; lia).
    lia.
  - split; [lia | apply Z.pow_pos_nonneg; lia].
Qed.

Lemma sort_key_short is_sub r :
  (String.length r <= 15)%nat -> exists x, sort_key is_sub r = Ok x.
Proof.
  intros Hr. pose proof (row_number_bound r) as Hb. unfold sort_key.
  set (num := match Re.match_ "(\d+)" r with Some _ => _ | None => _ end) in *.
  assert (Hp : 10 ^ Z.of_nat (String.length r) <= 10 ^ 15)
    by (apply Z.pow_le_mono_r; lia).
  destruct (is_sub && bool_decide (r ∈ SUB_ROWS)).
  - destruct (of_int_small (num - 10)) as [x ->]; [lia |]. by eexists.
  - apply of_int_small. lia.
Qed.

Lemma mapM_returns {A B} (f : A -> result B) l :
  Forall (fun x => exists y, f x = Ok y) l -> exists ys, mapM f l = Ok ys.
Proof.
  induction 1 as [| x l [y Hy] _ [ys IH]]; cbn; [by eexists |].
  rewrite Hy, IH. by eexists.
Qed.

(** X15. [sort_rows] only reorders: the rows it returns are the rows it
    was given, each as often. And it does return, whatever the section,
    when no row key is longer than 15 characters: the number of such a key
    is a float without overflow. *)
Theorem sort_rows_permutation (blok_name : string) (row_keys : list string) :
  (forall sorted, sort_rows blok_name row_keys = Ok sorted -> sorted ≡ₚ row_keys)
  /\ (Forall (fun r => (String.length r <= 15)%nat) row_keys ->
      returns (sort_rows blok_name row_keys)).
Proof.
  unfold sort_rows.
  set (is_sub := bool_decide (blok_name ∈ SUB_ROW_BLOKS)).
  split.
  - intros sorted. destruct (mapM (sort_key is_sub) row_keys) as [ks |] eqn:E;
      cbn; [| done].
    intros [= <-]. apply mapM_Ok, Forall2_length in E.
    rewrite sort_by_Permutation. rewrite snd_zip by lia. done.
  - intros Hs. destruct (mapM_returns (sort_key is_sub) row_keys) as [ks ->].
    + eapply Forall_impl; [exact Hs |]. intros r Hr. by apply sort_key_short.
    + by eexists.
Qed.

(** ** [row_label] *)

Lemma elem_of_SUB_ROWS r :
  r ∈ SUB_ROWS <-> In r ["11"; "12"; "13"; "14"; "15"].
Proof.
  unfold SUB_ROWS. rewrite !elem_of_union, !elem_of_singleton. simpl.
  intuition (subst; auto 10).
Qed.

(** A text with a point at the second place is no row key. *)
Lemma row_key_no_point a rest : ~ row_key (String a (String "." rest)).
Proof.
  intros (ds & letter & [Hne Hd] & _ & Hu & E).
  apply (f_equal list_ascii_of_string) in E.
  rewrite list_ascii_of_string_of_list_ascii in E. cbn in E.
  destruct ds as [| d [| d' ds]]; [done | |].
  - simpl in E. injection E as _ E. subst letter.
    by apply Forall_cons in Hu as [Hu _].
  - simpl in E. injection E as _ <- _.
    apply Forall_cons in Hd as [_ Hd]. by apply Forall_cons in Hd as [Hd _].
Qed.

(** X16. Within one table [row_label] gives different labels to
    different row keys: it is one-to-one on the keys that are a number
    with at most one capital letter. *)
Theorem row_label_injective (blok_name r1 r2 : string) :
  row_key r1 -> row_key r2 ->
  row_label blok_name r1 = row_label blok_name r2 -> r1 = r2.
Proof.
  intros H1 H2. unfold row_label.
  assert (HR : "R" +:+ r1 = "R" +:+ r2 -> r1 = r2).
  { change ("R" +:+ r1) with (String "R" r1).
    change ("R" +:+ r2) with (String "R" r2). by intros [= ->]. }
  destruct (bool_decide (blok_name ∈ SUB_ROW_BLOKS)); cbn [andb]; [| done].
  destruct (bool_decide (r1 ∈ SUB_ROWS)) eqn:E1,
           (bool_decide (r2 ∈ SUB_ROWS)) eqn:E2.
  - apply bool_decide_eq_true_1, elem_of_SUB_ROWS in E1, E2. simpl in E1, E2.
    intuition (subst; first [done | by vm_compute]).
  - apply bool_decide_eq_true_1, elem_of_SUB_ROWS in E1. simpl in E1.
    intros E. exfalso.
    assert (Hr : exists a rest, r2 = String a (String "." rest)).
    { intuition (subst; vm_compute in E; injection E as <-; by do 2 eexists). }
    destruct Hr as (a & rest & ->). by apply row_key_no_point in H2.
  - apply bool_decide_eq_true_1, elem_of_SUB_ROWS in E2. simpl in E2.
    intros E. exfalso.
    assert (Hr : exists a rest, r1 = String a (String "." rest)).
    { intuition (subst; vm_compute in E; injection E as ->; by do 2 eexists). }
    destruct Hr as (a & rest & ->). by apply row_key_no_point in H1.
  - done.
Qed.

Lemma row_label_injective_witness : "11" = "11".
Proof.
  apply (row_label_injective "B5E" "11" "11").
  - exists ["1"; "1"]%char, [].
    split; [split; [done | by repeat constructor] |].
    split; [simpl; lia |]. split; [constructor | done].
  - exists ["1"; "1"]%char, [].
    split; [split; [done | by repeat constructor] |].
    split; [simpl; lia |]. split; [constructor | done].
  - reflexivity.
Defined.

(** ** Fields outside the sections *)

(** X17. The fields of a record whose key belongs to no section (the
    identity fields and everything else [classify_blok_key] turns down)
    have no influence on the tables: leaving them out of the record gives
    the same result. *)
Theorem parse_blok_data_ignores_other_fields (rekap : ODict.t value) :
  parse_blok_data
    (List.filter (fun kv => bool_decide (is_Some (classify_blok_key kv.1))) rekap)
  = parse_blok_data rekap.
Proof.
  unfold parse_blok_data. f_equal.
  unfold collect_blok_raw. generalize (@nil (string * ODict.t value)).
  induction rekap as [| [key v] rekap IH]; intros acc; [done |].
  cbn [List.filter fst]. destruct (classify_blok_key key) as [b |] eqn:E.
  - rewrite bool_decide_eq_true_2 by done. cbn [fold_left]. rewrite E. apply IH.
  - rewrite bool_decide_eq_false_2 by (by intros [? ?]).
    cbn [fold_left]. rewrite E. apply IH.
Qed.
